(** * go-mwclient: the request core of [core.go]

    A shallow embedding of [Client.call] (dispatcher closure [callf] and the
    maxlag retry loop), [callJSON], [callRaw], [Get], [Post], [Login] and
    [Logout], with the effects of the Go code (HTTP sends, sleeps, closed
    response bodies, debug dumps, the in-place mutation of the parameter map
    and of the client) threaded explicitly.

    Conventions:
    - a Go result pair [(v, err)] is a pair of options, [None] being [nil];
    - Go's [int] and [int64] are [Z]; the only arithmetic that can leave the
      64-bit range ([time.Duration(Wait) * time.Second]) has its wrap-around
      written out;
    - [params.Values] is a Go map from strings to strings, here a [gmap];
      since Go maps are references, every function that mutates the caller's
      map returns the map as it is afterwards. *)

From Stdlib Require Import ZArith String Ascii.
From Equations Require Import Equations.
From stdpp Require Import gmap strings list.

Local Open Scope string_scope.
Local Open Scope Z_scope.
Local Open Scope list_scope.

(** ** Library data: parameters, headers, integers *)

(** Modelled from the spec: package [params] is not part of [core.go]; the
    spec describes it as a key-value container of strings with [set] and
    [get], and [core.go] builds it with a Go map literal and compares the
    result of [Get] with the empty string. *)
Abbreviation Values := (gmap string string).

Definition Values_Get (v : Values) (key : string) : string :=
  default EmptyString (v !! key).

Definition Values_Set (v : Values) (key value : string) : Values :=
  <[key := value]> v.

(** [http.Header]: canonical key to the list of values of that key. *)
Abbreviation Header := (gmap string (list string)).

Definition Header_Get (h : Header) (key : string) : string :=
  match h !! key with
  | Some (v :: _) => v
  | _ => EmptyString
  end.

Definition Header_Set (h : Header) (key value : string) : Header :=
  <[key := [value]]> h.

(** Two's complement wrap-around of a 64-bit signed integer. *)
Definition wrap64 (z : Z) : Z := (z + 2 ^ 63) mod 2 ^ 64 - 2 ^ 63.

Definition minInt : Z := - 2 ^ 63.
Definition maxInt : Z := 2 ^ 63 - 1.

(** [time.Second] in nanoseconds, the unit of [time.Duration]. *)
Definition Second : Z := 1000000000.

(** [time.Duration(n) * time.Second]. *)
Definition seconds (n : Z) : Z := wrap64 (n * Second).

(** [strconv.Atoi] on a 64-bit platform: an optional sign, then one or more
    decimal digits, the value within the range of [int]; [None] stands for
    the [*strconv.NumError] it returns otherwise. *)
Definition digit_val (c : ascii) : option Z :=
  let n := Z.of_N (N_of_ascii c) in
  if (48 <=? n) && (n <=? 57) then Some (n - 48) else None.

Fixpoint parse_digits (acc : Z) (s : string) : option Z :=
  match s with
  | EmptyString => Some acc
  | String c s' =>
      match digit_val c with
      | Some d => parse_digits (acc * 10 + d) s'
      | None => None
      end
  end.

Definition Atoi (s : string) : option Z :=
  match s with
  | EmptyString => None
  | String c rest =>
      let neg := Ascii.eqb c "-" in
      let ds := if neg || Ascii.eqb c "+" then rest else s in
      match ds with
      | EmptyString => None
      | _ =>
          match parse_digits 0 ds with
          | None => None
          | Some n =>
              let v := if neg then - n else n in
              if (minInt <=? v) && (v <=? maxInt) then Some v else None
          end
      end
  end.

(** ** JSON documents ([jason.Object] and [jason.Value]) *)

Inductive JSON :=
| JNull
| JBool (b : bool)
| JNumber (n : Z)
| JString (s : string)
| JArray (l : list JSON)
| JObject (o : list (string * JSON)).

Abbreviation Object := (list (string * JSON)).

Fixpoint obj_get (o : Object) (key : string) : option JSON :=
  match o with
  | [] => None
  | (k, v) :: o' => if String.eqb k key then Some v else obj_get o' key
  end.

(** [Object.GetValue(keys...)]: follow the keys through nested objects. *)
Fixpoint GetValue_from (v : JSON) (keys : list string) : option JSON :=
  match keys with
  | [] => Some v
  | k :: keys' =>
      match v with
      | JObject o =>
          match obj_get o k with
          | Some v' => GetValue_from v' keys'
          | None => None
          end
      | _ => None
      end
  end.

(** [Object.GetString(keys...)]: [None] stands for the error it returns when
    the path does not exist or does not end in a string. *)
Definition GetString (o : Object) (keys : list string) : option string :=
  match GetValue_from (JObject o) keys with
  | Some (JString s) => Some s
  | _ => None
  end.

(** ** Errors *)

(** The values of Go's [error] that the core produces or passes on:
    [ErrAPIBusy], [maxLagError] and [APIError] are the repository's own;
    [APIWarnings] and [ErrMalformedEnvelope] come from the error classifier;
    [ErrCreateRequest] and [ErrHTTPRequest] are the two [fmt.Errorf] of
    [callf]; [NumError] is [strconv]'s; [ErrReadBody] an error of reading a
    body; [ErrJSON] an error of the JSON decoder; [ErrLoginResult] the
    [fmt.Errorf] of [Login]; [ErrToken] an error of the token fetch.
    [Panic] stands for the run-time panic of a nil dereference; the lemmas
    [call_body_or_err] and [callJSON_doc_or_err] show that the places that
    could raise it are never reached. *)
Inductive error :=
| ErrAPIBusy
| maxLagError (Message : string) (Wait : Z)
| APIError (Code Info : string)
| APIWarnings (content : Object)
| ErrMalformedEnvelope
| ErrCreateRequest (detail : string)
| ErrHTTPRequest (detail : string)
| NumError (input : string)
| ErrReadBody (detail : string)
| ErrJSON
| ErrLoginResult
| ErrToken (detail : string)
| Panic.

(** The errors that stand for a failure to build or to send the request. *)
Definition is_transport_error (e : error) : bool :=
  match e with
  | ErrCreateRequest _ | ErrHTTPRequest _ => true
  | _ => false
  end.

(** The type assertion [err.(maxLagError)]. *)
Definition as_maxLagError (e : option error) : option (string * Z) :=
  match e with
  | Some (maxLagError m w) => Some (m, w)
  | _ => None
  end.

(** ** Requests, responses and the observable effects *)

Record Request := {
  Method : string;
  URL : string;
  ReqBody : option string;
  ReqHeader : Header
}.

(** What the transport hands back: the headers and the body stream, given by
    the bytes it delivers and the error, if any, that reading it ends with. *)
Record Response := {
  RespHeader : Header;
  RespBytes : string;
  RespReadErr : option string
}.

(** The outcome of [http.Client.Do]. *)
Inductive DoResult :=
| DoErr (detail : string)
| DoOK (resp : Response).

(** An [io.ReadCloser] in the hands of the program: the body of the response
    to the [rc_id]-th request sent, given by the bytes that reading it still
    delivers and the error, if any, that reading it ends with. It is either
    the stream of the transport itself or ([rc_buffered]) the copy in memory
    behind [io.NopCloser] that [httputil.DumpResponse] puts in its place,
    whose [Close] does nothing. *)
Record ReadCloser := {
  rc_id : nat;
  rc_bytes : string;
  rc_err : option string;
  rc_buffered : bool
}.

(** [ioutil.ReadAll]. *)
Definition ReadAll (r : ReadCloser) : string * option error :=
  match rc_err r with
  | Some e => (rc_bytes r, Some (ErrReadBody e))
  | None => (rc_bytes r, None)
  end.

(** What is written to the debug writer: the dump of a request or of a
    response. When [httputil] fails to dump, a line of text that says so is
    written in its place; the log does not tell the two apart. *)
Inductive Dump :=
| DumpRequestOut (req : Request)
| DumpResponse (resp : Response).

(** What happens on the network and on the clock. *)
Inductive Event :=
| EvSend (req : Request)
| EvSleep (d : Z)
| EvClose (id : nat).

(** The effects of the core, each kind in the order they happen: requests
    handed to the transport, durations (in nanoseconds) passed to
    [Maxlag.sleep], streams of the transport closed, dumps written to
    [Client.debug]; and, in [timeline], the first three in the one order in
    which they happen. *)
Record World := {
  sent : list Request;
  slept : list Z;
  closed : list nat;
  dumped : list Dump;
  timeline : list Event
}.

Definition world0 : World :=
  {| sent := []; slept := []; closed := []; dumped := []; timeline := [] |}.

Definition do_send (req : Request) (σ : World) : World :=
  {| sent := sent σ ++ [req]; slept := slept σ;
     closed := closed σ; dumped := dumped σ;
     timeline := timeline σ ++ [EvSend req] |}.

Definition do_sleep (d : Z) (σ : World) : World :=
  {| sent := sent σ; slept := slept σ ++ [d];
     closed := closed σ; dumped := dumped σ;
     timeline := timeline σ ++ [EvSleep d] |}.

Definition do_close (id : nat) (σ : World) : World :=
  {| sent := sent σ; slept := slept σ;
     closed := closed σ ++ [id]; dumped := dumped σ;
     timeline := timeline σ ++ [EvClose id] |}.

Definition do_dump (d : Dump) (σ : World) : World :=
  {| sent := sent σ; slept := slept σ;
     closed := closed σ; dumped := dumped σ ++ [d];
     timeline := timeline σ |}.

(** [body.Close()]: it closes the stream of the transport; on the copy in
    memory it does nothing. *)
Definition Close (body : ReadCloser) (σ : World) : World :=
  if rc_buffered body then σ else do_close (rc_id body) σ.

(** ** The client *)

(** [assertType] is a [uint8]; the three constants are its [iota] values. *)
Abbreviation assertType := Z (only parsing).

Definition AssertNone : assertType := 0.
Definition AssertUser : assertType := 1.
Definition AssertBot : assertType := 2.

(** The [Maxlag] struct. Its [sleep] field is the function called between
    retries; calling it is the effect [do_sleep]. *)
Record MaxlagCfg := {
  On : bool;
  Timeout : string;
  Retries : Z
}.

(** The [Client] struct. [httpc] answers a request given the requests sent
    before it (cookies and server state are functions of that history);
    [apiURL] is [w.apiURL.String()]; [debug] tells whether the debug writer
    is non-nil. *)
Record Client := {
  httpc : list Request -> Request -> DoResult;
  apiURL : string;
  UserAgent : string;
  Tokens : gmap string string;
  Maxlag : MaxlagCfg;
  Assert : assertType;
  debug : bool
}.

Definition set_Assert (a : assertType) (w : Client) : Client :=
  {| httpc := httpc w; apiURL := apiURL w; UserAgent := UserAgent w;
     Tokens := Tokens w; Maxlag := Maxlag w; Assert := a; debug := debug w |}.

Definition set_Tokens (t : gmap string string) (w : Client) : Client :=
  {| httpc := httpc w; apiURL := apiURL w; UserAgent := UserAgent w;
     Tokens := t; Maxlag := Maxlag w; Assert := Assert w; debug := debug w |}.

(** Go result pairs. *)
Abbreviation Result A := (option A * option error)%type.

(** What lies outside [core.go] and is used by it. *)
Record Extern := {
  (** [params.Values.Encode] *)
  Encode : Values -> string;
  (** the error of [http.NewRequest] on a URL it cannot parse *)
  NewRequest_err : string -> option string;
  (** the decoder behind [jason.NewObjectFromReader], on a stream given by
      its bytes and the error reading it ends with; [None] is its error *)
  jason_decode : string -> option string -> option Object;
  (** Modelled from the spec: [Client.GetToken] is not part of [core.go]; by
      the spec it is a dispatcher-backed token fetch that mutates, of the
      client, the token cache only. It returns the token or an error, the
      token cache and the world as they are afterwards. *)
  GetToken : string -> Client -> World -> (string * option error) * gmap string string * World
}.

(** Modelled from the spec: the constant [LoginToken] is declared outside
    [core.go]; the spec calls it the login-type token. *)
Definition LoginToken : string := "login".

(** Modelled from the spec: [extractAPIErrors] is not part of [core.go].
    By the spec (Error Classifier) a top-level [error] key gives the
    application error of its [code] and [info] strings, or a malformed
    envelope error when they cannot be read as strings; otherwise a non-empty
    top-level [warnings] object gives an application error built from its
    content; otherwise there is no error. *)
Definition extractAPIErrors (js : Object) : option error :=
  match obj_get js "error" with
  | Some e =>
      match GetValue_from e ["code"], GetValue_from e ["info"] with
      | Some (JString code), Some (JString info) => Some (APIError code info)
      | _, _ => Some ErrMalformedEnvelope
      end
  | None =>
      match obj_get js "warnings" with
      | Some (JObject (x :: ws)) => Some (APIWarnings (x :: ws))
      | _ => None
      end
  end.

(** ** The code of [core.go] *)

Section Core.
Context (X : Extern).

(** Lines 134-151 of [callf]: the protocol parameters set on [p]. *)
Definition augment (w : Client) (p : Values) : Values :=
  let p := Values_Set p "format" "json" in
  let p := Values_Set p "utf8" EmptyString in
  let p :=
    if On (Maxlag w) then
      if String.eqb (Values_Get p "maxlag") EmptyString then
        Values_Set p "maxlag" (Timeout (Maxlag w))
      else p
    else p in
  if AssertNone <? Assert w then
    if Assert w =? AssertUser then Values_Set p "assert" "user"
    else if Assert w =? AssertBot then Values_Set p "assert" "bot"
    else p
  else p.

(** Lines 153-177: the request built from the parameters. *)
Definition httpMethod (post : bool) : string :=
  if post then "POST" else "GET".

Definition request_url (w : Client) (post : bool) (p : Values) : string :=
  if post then apiURL w
  else String.append (apiURL w) (String.append "?" (Encode X p)).

Definition build_request (w : Client) (post : bool) (p : Values) : Request :=
  let h := Header_Set ∅ "User-Agent" (UserAgent w) in
  {| Method := httpMethod post;
     URL := request_url w post p;
     ReqBody := if post then Some (Encode X p) else None;
     ReqHeader :=
       if post then Header_Set h "Content-Type" "application/x-www-form-urlencoded"
       else h |}.

(** Lines 179-186: with a debug writer the request is dumped.
    [httputil.DumpRequestOut] reads the body of the request, a
    [strings.Reader] over the encoded parameters, and puts a copy in memory
    of the same bytes in its place, so the request handed to the transport
    is the same with and without a writer; only the dump log grows. *)
Definition debug_dump (w : Client) (d : Dump) (σ : World) : World :=
  if debug w then do_dump d σ else σ.

(** The world once the request was handed to the transport (lines
    179-192). *)
Definition sent_world (w : Client) (req : Request) (σ : World) : World :=
  do_send req (debug_dump w (DumpRequestOut req) σ).

(** The body of a response as the transport hands it over. *)
Definition transport_body (resp : Response) (id : nat) : ReadCloser :=
  {| rc_id := id; rc_bytes := RespBytes resp; rc_err := RespReadErr resp;
     rc_buffered := false |}.

(** What [httputil.DumpResponse(resp, true)] does to [resp.Body]
    ([drainBody]): it reads the stream to its end, closes it and puts a copy
    in memory in its place; when reading fails it leaves the stream in
    place, consumed and not closed, and a stream that has failed keeps
    failing with the same error, as the bodies of [net/http] do. *)
Definition drained (body : ReadCloser) : ReadCloser :=
  match rc_err body with
  | None =>
      {| rc_id := rc_id body; rc_bytes := rc_bytes body; rc_err := None;
         rc_buffered := true |}
  | Some e =>
      {| rc_id := rc_id body; rc_bytes := EmptyString; rc_err := Some e;
         rc_buffered := rc_buffered body |}
  end.

Definition drainBody (body : ReadCloser) (σ : World) : ReadCloser * World :=
  (drained body,
   match rc_err body with
   | None => Close body σ
   | Some _ => σ
   end).

(** Lines 194-201: with a debug writer the response is dumped, which drains
    its body; [resp.Body] afterwards and the world. *)
Definition dump_response (w : Client) (resp : Response) (body : ReadCloser)
  (σ : World) : ReadCloser * World :=
  if debug w then
    let '(body, σ) := drainBody body σ in
    (body, do_dump (DumpResponse resp) σ)
  else (body, σ).

(** [resp.Body] and the world once the response to the [id]-th request was
    received and, with a debug writer, dumped. *)
Definition received_body (w : Client) (resp : Response) (id : nat) : ReadCloser :=
  if debug w then drained (transport_body resp id) else transport_body resp id.

(** The streams that dumping the response to the [id]-th request closes:
    that of the response, when there is a debug writer and the stream can be
    read to its end. *)
Definition dump_closes (w : Client) (resp : Response) (id : nat) : list nat :=
  if debug w then
    match RespReadErr resp with
    | None => [id]
    | Some _ => []
    end
  else [].

Definition answered_world (w : Client) (req : Request) (resp : Response)
  (σ : World) : World :=
  (dump_response w resp (transport_body resp (length (sent σ)))
     (sent_world w req σ)).2.

(** Lines 203-222: the response classified; the deferred [Close] of the
    maxlag branch runs on each of its three exits. *)
Definition handle_response (resp : Response) (body : ReadCloser) (σ : World)
  : Result ReadCloser * World :=
  if negb (String.eqb (Header_Get (RespHeader resp) "X-Database-Lag") EmptyString) then
    match Atoi (Header_Get (RespHeader resp) "Retry-After") with
    | None =>
        ((None, Some (NumError (Header_Get (RespHeader resp) "Retry-After"))),
         Close body σ)
    | Some retryAfter =>
        match ReadAll body with
        | (_, Some err) => ((None, Some err), Close body σ)
        | (bytes, None) =>
            ((None, Some (maxLagError bytes retryAfter)), Close body σ)
        end
    end
  else ((Some body, None), σ).

(** The world a dispatch leaves when it took the maxlag branch. *)
Definition lag_world (w : Client) (req : Request) (resp : Response)
  (σ : World) : World :=
  Close (received_body w resp (length (sent σ))) (answered_world w req resp σ).

(** A response that takes the maxlag branch to its end: the lag header is
    set, [Retry-After] reads as the integer [n], the body can be read. *)
Definition signals_lag (resp : Response) (n : Z) : Prop :=
  Header_Get (RespHeader resp) "X-Database-Lag" ≠ EmptyString ∧
  Atoi (Header_Get (RespHeader resp) "Retry-After") = Some n ∧
  RespReadErr resp = None.

(** The closure [callf] of [Client.call]: one dispatch. It returns the
    result pair, the caller's map as mutated, and the world. *)
Definition callf (w : Client) (post : bool) (p : Values) (σ : World)
  : Result ReadCloser * Values * World :=
  let p := augment w p in
  match NewRequest_err X (request_url w post p) with
  | Some e => ((None, Some (ErrCreateRequest e)), p, σ)
  | None =>
      let req := build_request w post p in
      match httpc w (sent σ) req with
      | DoErr e => ((None, Some (ErrHTTPRequest e)), p, sent_world w req σ)
      | DoOK resp =>
          let '(body, σ) :=
            dump_response w resp (transport_body resp (length (sent σ)))
              (sent_world w req σ) in
          let '(r, σ) := handle_response resp body σ in
          (r, p, σ)
      end
  end.

(** Lines 227-243: the loop [for tries := 0; tries < Retries; tries++],
    entered at [tries]. Inside the loop [0 <= tries < Retries], so neither
    [tries++] nor [Retries-1] leaves the range of [int]. *)
Equations? retry_from (w : Client) (post : bool) (tries : Z) (p : Values)
  (σ : World) : Result ReadCloser * Values * World
  by wf (Z.to_nat (Retries (Maxlag w) - tries)) lt :=
retry_from w post tries p σ with Z_lt_dec tries (Retries (Maxlag w)) := {
  | right _ => ((None, Some ErrAPIBusy), p, σ)
  | left _ with callf w post p σ := {
    | ((reqResp, err), p', σ') with as_maxLagError err := {
      | Some (_, Wait) =>
          retry_from w post (tries + 1) p'
            (if tries <? Retries (Maxlag w) - 1
             then do_sleep (seconds Wait) σ' else σ')
      | None => ((reqResp, err), p', σ') } } }.
Proof. lia. Qed.

(** [Client.call]. *)
Definition call (w : Client) (p : Values) (post : bool) (σ : World)
  : Result ReadCloser * Values * World :=
  if On (Maxlag w) then retry_from w post 0 p σ
  else callf w post p σ.

(** [jason.NewObjectFromReader]. *)
Definition NewObjectFromReader (body : ReadCloser) : Result Object :=
  match jason_decode X (rc_bytes body) (rc_err body) with
  | Some js => (Some js, None)
  | None => (None, Some ErrJSON)
  end.

(** [Client.callJSON]; the deferred [body.Close()] runs on both exits
    that follow it. *)
Definition callJSON (w : Client) (p : Values) (post : bool) (σ : World)
  : Result Object * Values * World :=
  let '((body, err), p, σ) := call w p post σ in
  match err, body with
  | Some e, _ => ((None, Some e), p, σ)
  | None, None => ((None, Some Panic), p, σ)
  | None, Some body =>
      let σ := Close body σ in
      match NewObjectFromReader body with
      | (_, Some err) => ((None, Some err), p, σ)
      | (Some js, None) => ((Some js, extractAPIErrors js), p, σ)
      | (None, None) => ((None, Some Panic), p, σ)
      end
  end.

(** [Client.callRaw]. *)
Definition callRaw (w : Client) (p : Values) (post : bool) (σ : World)
  : Result string * Values * World :=
  let '((body, err), p, σ) := call w p post σ in
  match err, body with
  | Some e, _ => ((None, Some e), p, σ)
  | None, None => ((None, Some Panic), p, σ)
  | None, Some body =>
      let σ := Close body σ in
      match ReadAll body with
      | (_, Some err) => ((None, Some err), p, σ)
      | (buf, None) => ((Some buf, None), p, σ)
      end
  end.

Definition Get (w : Client) (p : Values) (σ : World) := callJSON w p false σ.
Definition GetRaw (w : Client) (p : Values) (σ : World) := callRaw w p false σ.
Definition Post (w : Client) (p : Values) (σ : World) := callJSON w p true σ.
Definition PostRaw (w : Client) (p : Values) (σ : World) := callRaw w p true σ.

(** The parameters of the login request. *)
Definition login_params (username password token : string) : Values :=
  <["action" := "login"]> (<["lgname" := username]>
    (<["lgpassword" := password]> (<["lgtoken" := token]> ∅))).

(** [Client.Login]: the error returned, the client and the world as they
    are afterwards. *)
Definition Login (w : Client) (username password : string) (σ : World)
  : option error * Client * World :=
  let '((token, err), tokens, σ) := GetToken X LoginToken w σ in
  let w := set_Tokens tokens w in
  match err with
  | Some e => (Some e, w, σ)
  | None =>
      let '((resp, err), _, σ) := Post w (login_params username password token) σ in
      match err, resp with
      | Some e, _ => (Some e, w, σ)
      | None, None => (Some Panic, w, σ)
      | None, Some resp =>
          match GetString resp ["login"; "result"] with
          | None => (Some ErrLoginResult, w, σ)
          | Some lgResult =>
              if negb (String.eqb lgResult "Success") then
                (Some (APIError lgResult EmptyString), w, σ)
              else
                (None,
                 (if Assert w =? AssertNone then set_Assert AssertUser w else w),
                 σ)
          end
      end
  end.

(** [Client.Logout]: it returns nothing; the client and the world as they
    are afterwards. *)
Definition Logout (w : Client) (σ : World) : Client * World :=
  let w := set_Assert AssertNone w in
  let '(_, _, σ) := Get w {["action" := "logout"]} σ in
  (w, σ).
End Core.

(** ** The rest of [core.go]: construction and debugging *)

(** [Client.SetDebug]; the writer is nil or not. *)
Definition SetDebug (wr : bool) (w : Client) : Client :=
  {| httpc := httpc w; apiURL := apiURL w; UserAgent := UserAgent w;
     Tokens := Tokens w; Maxlag := Maxlag w; Assert := Assert w; debug := wr |}.

Definition DefaultUserAgent : string :=
  "go-mwclient (https://github.com/cgt/go-mwclient)".

(** The two errors of [New]: the one of [url.Parse] and
    [fmt.Errorf("userAgent parameter empty")]. *)
Inductive NewError :=
| ErrParseURL (detail : string)
| ErrUserAgentEmpty.

Section Construction.
(** [url.Parse], giving the [String()] of the URL parsed or its error;
    [strings.TrimSpace]; the network the [http.Client] talks to.
    [cookiejar.New(nil)] returns no error. *)
Variables (url_Parse : string -> string + string)
          (TrimSpace : string -> string)
          (network : list Request -> Request -> DoResult).

(** [New]. *)
Definition New (inURL userAgent : string) : option Client * option NewError :=
  match url_Parse inURL with
  | inr err => (None, Some (ErrParseURL err))
  | inl apiurl =>
      if String.eqb (TrimSpace userAgent) EmptyString then
        (None, Some ErrUserAgentEmpty)
      else
        (Some {| httpc := network;
                 apiURL := apiurl;
                 UserAgent :=
                   String.append userAgent (String.append " " DefaultUserAgent);
                 Tokens := ∅;
                 Maxlag := {| On := false; Timeout := "5"; Retries := 3 |};
                 Assert := AssertNone;
                 debug := false |},
         None)
  end.
End Construction.

(** ** Predicates of the properties *)

(** The [i]-th request of the log was answered with a response, and so with
    a body stream that somebody has to close. *)
Definition answered (w : Client) (l : list Request) (i : nat) : Prop :=
  ∃ req resp, l !! i = Some req ∧ httpc w (take i l) req = DoOK resp.

(** Every body received so far was closed, once. *)
Definition bodies_settled (w : Client) (σ : World) : Prop :=
  NoDup (closed σ) ∧ ∀ i, i ∈ closed σ ↔ answered w (sent σ) i.

(** Every stream received so far was closed, once, but for the one in [r]
    when that is a stream of the transport and not a copy in memory: it is
    still open. *)
Definition settled_but (w : Client) (σ : World) (r : option ReadCloser) : Prop :=
  NoDup (closed σ) ∧
  (∀ b, r = Some b → rc_buffered b = false → rc_id b ∉ closed σ) ∧
  ∀ i, answered w (sent σ) i ↔
       (i ∈ closed σ ∨ ∃ b, r = Some b ∧ rc_buffered b = false ∧ rc_id b = i).

(** The events of successive attempts that are answered with lag and
    followed by a sleep: each sends the request, closes the stream of the
    response and sleeps for the seconds that response asked for. *)
Fixpoint lag_rounds (req : Request) (first : nat) (waits : list Z) : list Event :=
  match waits with
  | [] => []
  | n :: waits' =>
      EvSend req :: EvClose first :: EvSleep (seconds n) ::
      lag_rounds req (S first) waits'
  end.



(** The requests among the dumps, in order. *)
Fixpoint dumped_requests (l : list Dump) : list Request :=
  match l with
  | [] => []
  | DumpRequestOut req :: l' => req :: dumped_requests l'
  | DumpResponse _ :: l' => dumped_requests l'
  end.

(** The errors of the error classifier. *)
Definition is_api_error (e : error) : bool :=
  match e with
  | APIError _ _ | APIWarnings _ | ErrMalformedEnvelope => true
  | _ => false
  end.

(** The errors a dispatch can end with. *)
Definition is_dispatch_error (e : error) : bool :=
  match e with
  | ErrCreateRequest _ | ErrHTTPRequest _ | NumError _ | ErrReadBody _
  | maxLagError _ _ => true
  | _ => false
  end.

(** ** Concrete clients, servers and documents used by the examples *)

Module Ex.
(** A plain encoder: [k=v] pairs joined by [&], in key order. *)
Definition encode (p : Values) : string :=
  foldr (fun kv acc =>
           String.append (fst kv)
             (String.append "=" (String.append (snd kv) (String.append "&" acc))))
        EmptyString (map_to_list p).

(** Writes a JSON text with ['] for the double quote. *)
Definition dquote : ascii := Ascii.ascii_of_nat 34.

Fixpoint json_text (s : string) : string :=
  match s with
  | EmptyString => EmptyString
  | String c s' =>
      String (if Ascii.eqb c "'" then dquote else c) (json_text s')
  end.

Definition error_body : string :=
  json_text "{'error':{'code':'badtoken','info':'Invalid token'}}".

Definition error_doc : Object :=
  [("error", JObject [("code", JString "badtoken");
                      ("info", JString "Invalid token")])].

Definition login_body (result : string) : string :=
  json_text (String.append "{'login':{'result':'" (String.append result "'}}")).

Definition login_doc (result : string) : Object :=
  [("login", JObject [("result", JString result)])].

(** A login answered with [Success] and a warning beside it. *)
Definition warned_login_body : string :=
  json_text
    "{'login':{'result':'Success'},'warnings':{'main':{'*':'deprecated'}}}".

Definition warned_login_doc : Object :=
  [("login", JObject [("result", JString "Success")]);
   ("warnings", JObject [("main", JObject [("*", JString "deprecated")])])].

(** A decoder that knows the documents above. *)
Definition decode (bytes : string) (err : option string) : option Object :=
  match err with
  | Some _ => None
  | None =>
      if String.eqb bytes error_body then Some error_doc
      else if String.eqb bytes (login_body "Success") then Some (login_doc "Success")
      else if String.eqb bytes (login_body "Failed") then Some (login_doc "Failed")
    else if String.eqb bytes warned_login_body then Some warned_login_doc
      else None
  end.

(** A token fetch that answers from the cache and touches nothing. *)
Definition getToken (name : string) (w : Client) (σ : World)
  : (string * option error) * gmap string string * World :=
  ((default "tok" (Tokens w !! name), None), Tokens w, σ).

Definition X : Extern :=
  {| Encode := encode;
     NewRequest_err := fun _ => None;
     jason_decode := decode;
     GetToken := getToken |}.

Definition ok_response (bytes : string) : Response :=
  {| RespHeader := ∅; RespBytes := bytes; RespReadErr := None |}.

(** A response that signals lag and asks to wait [after]. *)
Definition lag_response (lag after : string) : Response :=
  {| RespHeader := <["X-Database-Lag" := [lag]]> (<["Retry-After" := [after]]> ∅);
     RespBytes := "lagged";
     RespReadErr := None |}.

(** The client [New] returns (maxlag off, timeout 5, 3 retries), on the
    given transport. *)
Definition client (t : list Request -> Request -> DoResult) : Client :=
  {| httpc := t;
     apiURL := "https://wiki.example/w/api.php";
     UserAgent := "bot go-mwclient (https://github.com/cgt/go-mwclient)";
     Tokens := ∅;
     Maxlag := {| On := false; Timeout := "5"; Retries := 3 |};
     Assert := AssertNone;
     debug := false |}.

Definition with_maxlag (on : bool) (retries : Z) (w : Client) : Client :=
  {| httpc := httpc w; apiURL := apiURL w; UserAgent := UserAgent w;
     Tokens := Tokens w;
     Maxlag := {| On := on; Timeout := Timeout (Maxlag w); Retries := retries |};
     Assert := Assert w; debug := debug w |}.

(** Transports: one that always answers the same way, one that lags on
    the first request only, one that fails to connect. *)
Definition always (resp : Response) : list Request -> Request -> DoResult :=
  fun _ _ => DoOK resp.

Definition lag_once (after body : string) : list Request -> Request -> DoResult :=
  fun history _ =>
    match history with
    | [] => DoOK (lag_response "7" after)
    | _ => DoOK (ok_response body)
    end.

Definition unreachable : list Request -> Request -> DoResult :=
  fun _ _ => DoErr "dial tcp: connection refused".
End Ex.

(** Stand-ins for [url.Parse] and [strings.TrimSpace] on the ASCII strings
    of the examples: every string but the empty one parses to itself; blanks
    are the six ASCII white space characters. *)
Module ExNew.
Definition parse (s : string) : string + string :=
  if String.eqb s EmptyString then inr "empty url" else inl s.

Definition is_blank (c : ascii) : bool :=
  let n := N_of_ascii c in
  (N.eqb n 32 || (N.leb 9 n && N.leb n 13))%bool.

Fixpoint trim_left (s : string) : string :=
  match s with
  | EmptyString => EmptyString
  | String c s' => if is_blank c then trim_left s' else s
  end.

Fixpoint trim_right (s : string) : string :=
  match s with
  | EmptyString => EmptyString
  | String c s' =>
      match trim_right s' with
      | EmptyString => if is_blank c then EmptyString else String c EmptyString
      | t => String c t
      end
  end.

Definition trim (s : string) : string := trim_right (trim_left s).
End ExNew.

(** ** Properties *)

(** *** The world after each effect *)

Lemma sent_debug_dump w d σ : sent (debug_dump w d σ) = sent σ.
Proof. unfold debug_dump; destruct (debug w); reflexivity. Qed.

Lemma slept_debug_dump w d σ : slept (debug_dump w d σ) = slept σ.
Proof. unfold debug_dump; destruct (debug w); reflexivity. Qed.

Lemma closed_debug_dump w d σ : closed (debug_dump w d σ) = closed σ.
Proof. unfold debug_dump; destruct (debug w); reflexivity. Qed.

Lemma timeline_debug_dump w d σ : timeline (debug_dump w d σ) = timeline σ.
Proof. unfold debug_dump; destruct (debug w); reflexivity. Qed.

Lemma sent_Close b σ : sent (Close b σ) = sent σ.
Proof. unfold Close; destruct (rc_buffered b); reflexivity. Qed.

Lemma slept_Close b σ : slept (Close b σ) = slept σ.
Proof. unfold Close; destruct (rc_buffered b); reflexivity. Qed.

Lemma dumped_Close b σ : dumped (Close b σ) = dumped σ.
Proof. unfold Close; destruct (rc_buffered b); reflexivity. Qed.

Lemma closed_Close b σ :
  closed (Close b σ) = closed σ ++ (if rc_buffered b then [] else [rc_id b]).
Proof. unfold Close; destruct (rc_buffered b); cbn; by rewrite ?app_nil_r. Qed.

Lemma timeline_Close b σ :
  timeline (Close b σ) =
  timeline σ ++ (if rc_buffered b then [] else [EvClose (rc_id b)]).
Proof. unfold Close; destruct (rc_buffered b); cbn; by rewrite ?app_nil_r. Qed.

Lemma sent_sent_world w req σ : sent (sent_world w req σ) = sent σ ++ [req].
Proof. unfold sent_world. cbn. by rewrite sent_debug_dump. Qed.

Lemma slept_sent_world w req σ : slept (sent_world w req σ) = slept σ.
Proof. unfold sent_world. cbn. by rewrite slept_debug_dump. Qed.

Lemma closed_sent_world w req σ : closed (sent_world w req σ) = closed σ.
Proof. unfold sent_world. cbn. by rewrite closed_debug_dump. Qed.

Lemma timeline_sent_world w req σ :
  timeline (sent_world w req σ) = timeline σ ++ [EvSend req].
Proof. unfold sent_world. cbn. by rewrite timeline_debug_dump. Qed.

(** What the dump of a response leaves. *)
Lemma dump_response_transport w resp id σ :
  dump_response w resp (transport_body resp id) σ =
  (received_body w resp id, (dump_response w resp (transport_body resp id) σ).2).
Proof.
  unfold dump_response, received_body, drainBody. by destruct (debug w).
Qed.

Lemma sent_answered_world w req resp σ :
  sent (answered_world w req resp σ) = sent σ ++ [req].
Proof.
  unfold answered_world, dump_response, drainBody, Close, transport_body,
    sent_world, debug_dump.
  by destruct (debug w), (RespReadErr resp).
Qed.

Lemma slept_answered_world w req resp σ :
  slept (answered_world w req resp σ) = slept σ.
Proof.
  unfold answered_world, dump_response, drainBody, Close, transport_body,
    sent_world, debug_dump.
  by destruct (debug w), (RespReadErr resp).
Qed.

Lemma closed_answered_world w req resp σ :
  closed (answered_world w req resp σ) =
  closed σ ++ dump_closes w resp (length (sent σ)).
Proof.
  unfold answered_world, dump_response, drainBody, Close, dump_closes,
    transport_body, sent_world, debug_dump.
  destruct (debug w), (RespReadErr resp); cbn; by rewrite ?app_nil_r.
Qed.

Lemma timeline_answered_world w req resp σ :
  timeline (answered_world w req resp σ) =
  timeline σ ++ [EvSend req] ++ (EvClose <$> dump_closes w resp (length (sent σ))).
Proof.
  unfold answered_world, dump_response, drainBody, Close, dump_closes,
    transport_body, sent_world, debug_dump.
  destruct (debug w), (RespReadErr resp); cbn; by rewrite <- ?app_assoc.
Qed.

(** The body received is closed by the dump or is still the stream. *)
Lemma received_body_closes w resp id :
  dump_closes w resp id ++
    (if rc_buffered (received_body w resp id) then [] else [id]) = [id] ∧
  rc_id (received_body w resp id) = id.
Proof.
  unfold dump_closes, received_body, drained, transport_body.
  destruct (debug w), (RespReadErr resp); done.
Qed.

(** A dispatch that took the maxlag branch sent one request and closed the
    stream of its response, once, with or without a debug writer. *)
Lemma sent_lag_world w req resp σ :
  sent (lag_world w req resp σ) = sent σ ++ [req].
Proof. unfold lag_world. by rewrite sent_Close, sent_answered_world. Qed.

Lemma slept_lag_world w req resp σ :
  slept (lag_world w req resp σ) = slept σ.
Proof. unfold lag_world. by rewrite slept_Close, slept_answered_world. Qed.

Lemma closed_lag_world w req resp σ :
  closed (lag_world w req resp σ) = closed σ ++ [length (sent σ)].
Proof.
  unfold lag_world. rewrite closed_Close, closed_answered_world, <- app_assoc.
  destruct (received_body_closes w resp (length (sent σ))) as [H ->].
  by rewrite H.
Qed.

Lemma timeline_lag_world w req resp σ :
  timeline (lag_world w req resp σ) =
  timeline σ ++ [EvSend req; EvClose (length (sent σ))].
Proof.
  unfold lag_world. rewrite timeline_Close, timeline_answered_world, <- !app_assoc.
  unfold dump_closes, received_body, drained, transport_body.
  by destruct (debug w), (RespReadErr resp).
Qed.

Create Rewrite HintDb world.
#[local] Hint Rewrite sent_debug_dump slept_debug_dump closed_debug_dump
  timeline_debug_dump sent_Close slept_Close dumped_Close closed_Close
  timeline_Close sent_sent_world slept_sent_world closed_sent_world
  timeline_sent_world sent_answered_world slept_answered_world
  closed_answered_world timeline_answered_world sent_lag_world slept_lag_world
  closed_lag_world timeline_lag_world : world.

Ltac world_simpl :=
  repeat (autorewrite with world in *; cbn [sent slept closed dumped timeline
    do_send do_sleep do_close do_dump fst snd] in * ).

(** *** The parameters set by the dispatcher *)

Section Augment.
Variables (w : Client) (p : Values).

Lemma augment_format : augment w p !! "format" = Some "json".
Proof.
  unfold augment, Values_Set.
  repeat case_match; by simplify_map_eq.
Qed.

Lemma augment_utf8 : augment w p !! "utf8" = Some EmptyString.
Proof.
  unfold augment, Values_Set.
  repeat case_match; by simplify_map_eq.
Qed.

Lemma Get_maxlag_base :
  Values_Get (Values_Set (Values_Set p "format" "json") "utf8" EmptyString) "maxlag"
  = Values_Get p "maxlag".
Proof. unfold Values_Get, Values_Set. by simplify_map_eq. Qed.

(** The [maxlag] entry after augmentation. *)
Lemma augment_maxlag :
  augment w p !! "maxlag" =
  if On (Maxlag w) && String.eqb (Values_Get p "maxlag") EmptyString
  then Some (Timeout (Maxlag w)) else p !! "maxlag".
Proof.
  unfold augment. rewrite Get_maxlag_base. unfold Values_Set.
  destruct (On (Maxlag w)), (String.eqb (Values_Get p "maxlag") EmptyString);
    cbn [andb]; repeat case_match; by simplify_map_eq.
Qed.

(** The [assert] entry after augmentation. *)
Lemma augment_assert :
  augment w p !! "assert" =
  if AssertNone <? Assert w then
    if Assert w =? AssertUser then Some "user"
    else if Assert w =? AssertBot then Some "bot"
    else p !! "assert"
  else p !! "assert".
Proof.
  unfold augment, Values_Set.
  repeat case_match; by simplify_map_eq.
Qed.

(** Every other key is left as the caller set it. *)
Lemma augment_other (k : string) :
  k ≠ "format" → k ≠ "utf8" → k ≠ "maxlag" → k ≠ "assert" →
  augment w p !! k = p !! k.
Proof.
  intros. unfold augment, Values_Set.
  repeat case_match; by simplify_map_eq.
Qed.
End Augment.

(** A second dispatch finds the map as the first one left it and sets the
    same entries again. *)
Lemma augment_idem w p : augment w (augment w p) = augment w p.
Proof.
  apply map_eq; intros k.
  destruct (decide (k = "format")) as [->|Hf].
  { by rewrite !augment_format. }
  destruct (decide (k = "utf8")) as [->|Hu].
  { by rewrite !augment_utf8. }
  destruct (decide (k = "assert")) as [->|Ha].
  { rewrite (augment_assert w (augment w p)).
    rewrite (augment_assert w p). repeat case_match; done. }
  destruct (decide (k = "maxlag")) as [->|Hm].
  { rewrite (augment_maxlag w (augment w p)).
    unfold Values_Get at 1. rewrite (augment_maxlag w p).
    destruct (On (Maxlag w)); cbn [andb]; [|done].
    destruct (String.eqb_spec (Values_Get p "maxlag") EmptyString) as [He|Hne];
      cbn [default].
    - by case_match.
    - destruct (String.eqb_spec (default EmptyString (p !! "maxlag")) EmptyString);
        [|done]. unfold Values_Get in Hne. contradiction. }
  by rewrite !augment_other.
Qed.

(** *** One dispatch *)

Section Dispatch.
Context (X : Extern).

(** [callf] by cases on what the transport does. *)
Lemma callf_bad_request w post p σ e :
  NewRequest_err X (request_url X w post (augment w p)) = Some e →
  callf X w post p σ = ((None, Some (ErrCreateRequest e)), augment w p, σ).
Proof. intros H. unfold callf. by rewrite H. Qed.

Lemma callf_do_err w post p σ e :
  NewRequest_err X (request_url X w post (augment w p)) = None →
  httpc w (sent σ) (build_request X w post (augment w p)) = DoErr e →
  callf X w post p σ =
    ((None, Some (ErrHTTPRequest e)), augment w p,
     sent_world w (build_request X w post (augment w p)) σ).
Proof.
  intros Hn Hd. unfold callf. rewrite Hn, Hd. done.
Qed.

Lemma callf_do_ok w post p σ resp :
  NewRequest_err X (request_url X w post (augment w p)) = None →
  httpc w (sent σ) (build_request X w post (augment w p)) = DoOK resp →
  callf X w post p σ =
    (let '(r, σ') :=
       handle_response resp (received_body w resp (length (sent σ)))
         (answered_world w (build_request X w post (augment w p)) resp σ) in
     (r, augment w p, σ')).
Proof.
  intros Hn Hd. unfold callf. rewrite Hn, Hd, dump_response_transport. done.
Qed.

(** The world a response leaves is the answered world, or the lag world
    when the maxlag branch was taken. *)
Lemma handle_response_world resp body σ :
  (handle_response resp body σ).2 = σ ∨
  (handle_response resp body σ).2 = Close body σ.
Proof. unfold handle_response. repeat case_match; simplify_eq; auto. Qed.

(** A dispatch hands at most one request to the transport, the one built
    from the augmented parameters; it never sleeps; it leaves the caller's
    map augmented. *)
Lemma callf_effects w post p σ r p' σ' :
  callf X w post p σ = (r, p', σ') →
  p' = augment w p ∧
  slept σ' = slept σ ∧
  (sent σ' = sent σ ∨
   sent σ' = sent σ ++ [build_request X w post (augment w p)]).
Proof.
  destruct (NewRequest_err X (request_url X w post (augment w p))) as [e|] eqn:Hn.
  { rewrite (callf_bad_request _ _ _ _ _ Hn). intros; simplify_eq; auto. }
  destruct (httpc w (sent σ) (build_request X w post (augment w p)))
    as [e|resp] eqn:Hd.
  - rewrite (callf_do_err _ _ _ _ _ Hn Hd). intros; simplify_eq.
    world_simpl. auto.
  - rewrite (callf_do_ok _ _ _ _ _ Hn Hd).
    pose proof (handle_response_world resp
                  (received_body w resp (length (sent σ)))
                  (answered_world w (build_request X w post (augment w p)) resp σ))
      as Hw.
    destruct (handle_response _ _ _) as [r0 σ0]. cbn in Hw.
    intros; simplify_eq. destruct Hw as [->| ->]; world_simpl; auto.
Qed.

(** A dispatch that reports lag did reach the transport, closed the body
    it got and slept not. *)
Lemma callf_lag_effects w post p σ r m wt p' σ' :
  callf X w post p σ = ((r, Some (maxLagError m wt)), p', σ') →
  r = None ∧ p' = augment w p ∧
  sent σ' = sent σ ++ [build_request X w post (augment w p)] ∧
  slept σ' = slept σ ∧
  closed σ' = closed σ ++ [length (sent σ)] ∧
  timeline σ' =
    timeline σ ++ [EvSend (build_request X w post (augment w p));
                   EvClose (length (sent σ))].
Proof.
  destruct (NewRequest_err X (request_url X w post (augment w p))) as [e|] eqn:Hn.
  { rewrite (callf_bad_request _ _ _ _ _ Hn). intros; simplify_eq. }
  destruct (httpc w (sent σ) (build_request X w post (augment w p)))
    as [e|resp] eqn:Hd.
  { rewrite (callf_do_err _ _ _ _ _ Hn Hd). intros; simplify_eq. }
  rewrite (callf_do_ok _ _ _ _ _ Hn Hd).
  unfold handle_response, ReadAll.
  fold (lag_world w (build_request X w post (augment w p)) resp σ).
  repeat case_match; intros; simplify_eq; by world_simpl.
Qed.

(** A dispatch returns a body or an error, never both, never neither. *)
Lemma callf_body_or_err w post p σ r e p' σ' :
  callf X w post p σ = ((r, e), p', σ') →
  (is_Some r ∧ e = None) ∨ (r = None ∧ is_Some e).
Proof.
  unfold callf, handle_response, ReadAll. intros H.
  repeat case_match; simplify_eq; eauto.
Qed.
End Dispatch.

(** *** The retry loop *)

Section Retry.
Context (X : Extern).

(** The loop unfolded once, as the Go text reads. *)
Lemma retry_from_step w post tries p σ :
  retry_from X w post tries p σ =
  if tries <? Retries (Maxlag w) then
    let '((reqResp, err), p', σ') := callf X w post p σ in
    match as_maxLagError err with
    | Some (_, Wait) =>
        retry_from X w post (tries + 1) p'
          (if tries <? Retries (Maxlag w) - 1
           then do_sleep (seconds Wait) σ' else σ')
    | None => ((reqResp, err), p', σ')
    end
  else ((None, Some ErrAPIBusy), p, σ).
Proof.
  simp retry_from.
  destruct (Z_lt_dec tries (Retries (Maxlag w))) as [Hlt|Hge]; simp retry_from.
  - rewrite (proj2 (Z.ltb_lt _ _) Hlt).
    destruct (callf X w post p σ) as [[[r e] p'] σ']. simp retry_from.
    destruct (as_maxLagError e) as [[m wt]|]; by simp retry_from.
  - by rewrite (proj2 (Z.ltb_ge _ _)) by lia.
Qed.

(** No attempt is left: the loop ends with [ErrAPIBusy]. *)
Lemma retry_from_exhausted w post tries p σ :
  Retries (Maxlag w) <= tries →
  retry_from X w post tries p σ = ((None, Some ErrAPIBusy), p, σ).
Proof.
  intros H. rewrite retry_from_step.
  by rewrite (proj2 (Z.ltb_ge _ _)) by lia.
Qed.

(** An attempt whose error is not a [maxLagError] ends the loop with the
    result of that attempt. *)
Lemma retry_from_return w post tries p σ r e p' σ' :
  tries < Retries (Maxlag w) →
  callf X w post p σ = ((r, e), p', σ') →
  as_maxLagError e = None →
  retry_from X w post tries p σ = ((r, e), p', σ').
Proof.
  intros Hlt Hc He. rewrite retry_from_step.
  by rewrite (proj2 (Z.ltb_lt _ _) Hlt), Hc, He.
Qed.

(** An attempt that reports lag sleeps, unless it was the last one, and
    the loop goes on. *)
Lemma retry_from_lag w post tries p σ r m wt p' σ' :
  tries < Retries (Maxlag w) →
  callf X w post p σ = ((r, Some (maxLagError m wt)), p', σ') →
  retry_from X w post tries p σ =
  retry_from X w post (tries + 1) p'
    (if tries <? Retries (Maxlag w) - 1 then do_sleep (seconds wt) σ' else σ').
Proof.
  intros Hlt Hc. rewrite retry_from_step.
  by rewrite (proj2 (Z.ltb_lt _ _) Hlt), Hc.
Qed.

Lemma as_maxLagError_Some e m wt :
  as_maxLagError e = Some (m, wt) → e = Some (maxLagError m wt).
Proof. destruct e as [[]|]; cbn; intros; by simplify_eq. Qed.

(** Induction along the iterations of the loop. *)
Lemma retry_loop_ind w post
  (P : Z → Values → World → Result ReadCloser * Values * World → Prop) :
  (∀ tries p σ, Retries (Maxlag w) <= tries →
     P tries p σ ((None, Some ErrAPIBusy), p, σ)) →
  (∀ tries p σ r e p' σ', tries < Retries (Maxlag w) →
     callf X w post p σ = ((r, e), p', σ') → as_maxLagError e = None →
     P tries p σ ((r, e), p', σ')) →
  (∀ tries p σ r m wt p' σ' res, tries < Retries (Maxlag w) →
     callf X w post p σ = ((r, Some (maxLagError m wt)), p', σ') →
     P (tries + 1) p'
       (if tries <? Retries (Maxlag w) - 1 then do_sleep (seconds wt) σ' else σ')
       res →
     P tries p σ res) →
  ∀ tries p σ, P tries p σ (retry_from X w post tries p σ).
Proof.
  intros Hend Hret Hlag tries.
  remember (Z.to_nat (Retries (Maxlag w) - tries)) as n eqn:Hn.
  revert tries Hn. induction n as [|n IH]; intros tries Hn p σ.
  - rewrite retry_from_exhausted by lia. apply Hend. lia.
  - assert (Hlt : tries < Retries (Maxlag w)) by lia.
    destruct (callf X w post p σ) as [[[r e] p'] σ'] eqn:Hc.
    destruct (as_maxLagError e) as [[m wt]|] eqn:He.
    + apply as_maxLagError_Some in He as ->.
      rewrite (retry_from_lag _ _ _ _ _ _ _ _ _ _ Hlt Hc).
      eapply Hlag; [done..|]. apply IH. lia.
    + rewrite (retry_from_return _ _ _ _ _ _ _ _ _ Hlt Hc He).
      by apply Hret.
Qed.
End Retry.

(** *** A server that keeps signalling lag *)

Section Lagging.
Context (X : Extern).

Lemma received_body_readable w resp id :
  RespReadErr resp = None →
  rc_err (received_body w resp id) = None ∧
  rc_bytes (received_body w resp id) = RespBytes resp.
Proof.
  intros H. unfold received_body, drained, transport_body. cbn. rewrite H.
  by destruct (debug w).
Qed.

Lemma handle_response_lag w resp id σ n :
  signals_lag resp n →
  handle_response resp (received_body w resp id) σ =
    ((None, Some (maxLagError (RespBytes resp) n)),
     Close (received_body w resp id) σ).
Proof.
  intros (Hh & Ha & Hr). unfold handle_response, ReadAll.
  destruct (String.eqb_spec (Header_Get (RespHeader resp) "X-Database-Lag")
              EmptyString); [done|].
  destruct (received_body_readable w resp id Hr) as [-> ->].
  cbn [negb]. by rewrite Ha.
Qed.

Lemma callf_lag w post p σ resp n :
  NewRequest_err X (request_url X w post (augment w p)) = None →
  httpc w (sent σ) (build_request X w post (augment w p)) = DoOK resp →
  signals_lag resp n →
  callf X w post p σ =
    ((None, Some (maxLagError (RespBytes resp) n)), augment w p,
     lag_world w (build_request X w post (augment w p)) resp σ).
Proof.
  intros Hn Hd Hl. rewrite (callf_do_ok _ _ _ _ _ _ Hn Hd).
  by rewrite (handle_response_lag _ _ _ _ _ Hl).
Qed.

(** With [k] attempts left and a transport that answers every request
    with the lag signal and the same wait, the loop makes [k] attempts,
    sleeps between them and not after the last, and ends busy. *)
Lemma retry_from_all_lag w post p n :
  NewRequest_err X (request_url X w post (augment w p)) = None →
  (∀ history, ∃ resp,
     httpc w history (build_request X w post (augment w p)) = DoOK resp ∧
     signals_lag resp n) →
  ∀ (k : nat) tries p0 σ,
    augment w p0 = augment w p →
    Retries (Maxlag w) - tries = Z.of_nat k →
    ∃ σ',
      retry_from X w post tries p0 σ =
        ((None, Some ErrAPIBusy),
         match k with O => p0 | S _ => augment w p end, σ') ∧
      sent σ' = sent σ ++ replicate k (build_request X w post (augment w p)) ∧
      slept σ' = slept σ ++ replicate (k - 1) (seconds n) ∧
      closed σ' = closed σ ++ seq (length (sent σ)) k.
Proof.
  intros Hurl Hlag k. induction k as [|k IH]; intros tries p0 σ Hp Hk.
  - exists σ. rewrite retry_from_exhausted by lia.
    cbn. by rewrite !app_nil_r.
  - destruct (Hlag (sent σ)) as (resp & Hd & Hl).
    assert (Hc := callf_lag w post p0 σ resp n).
    rewrite Hp in Hc. specialize (Hc Hurl Hd Hl).
    assert (Hlt : tries < Retries (Maxlag w)) by lia.
    rewrite (retry_from_lag _ _ _ _ _ _ _ _ _ _ _ Hlt Hc).
    set (σ1 := if tries <? _ then _ else _).
    assert (Hk' : Retries (Maxlag w) - (tries + 1) = Z.of_nat k) by lia.
    destruct (IH (tries + 1) (augment w p) σ1 (augment_idem w p) Hk')
      as (σ' & Hr & Hs & Hz & Hcl).
    exists σ'. split; [|split; [|split]].
    + rewrite Hr. by destruct k.
    + rewrite Hs. subst σ1. case_match; world_simpl;
        by rewrite <- app_assoc.
    + rewrite Hz. subst σ1. destruct k as [|k].
      * rewrite (proj2 (Z.ltb_ge _ _)) by lia. by world_simpl.
      * rewrite (proj2 (Z.ltb_lt _ _)) by lia. world_simpl.
        replace (S (S k) - 1)%nat with (S k) by lia.
        replace (S k - 1)%nat with k by lia.
        by rewrite <- app_assoc.
    + rewrite Hcl. subst σ1. case_match; world_simpl;
        rewrite <- app_assoc; cbn [seq app]; repeat f_equal;
        rewrite length_app; cbn; f_equal; lia.
Qed.
End Lagging.

(** *** What every call does *)

Section Call.
Context (X : Extern).

(** The requests a loop hands to the transport are all the request built
    from the augmented parameters, at most one per attempt left. *)
Lemma retry_from_sent w post p tries p0 σ :
  augment w p0 = augment w p →
  ∃ k : nat,
    sent (retry_from X w post tries p0 σ).2 =
      sent σ ++ replicate k (build_request X w post (augment w p)) ∧
    Z.of_nat k <= Z.max 0 (Retries (Maxlag w) - tries).
Proof.
  revert tries p0 σ.
  apply (retry_loop_ind X w post (fun tries p0 σ res =>
    augment w p0 = augment w p →
    ∃ k : nat,
      sent res.2 = sent σ ++ replicate k (build_request X w post (augment w p)) ∧
      Z.of_nat k <= Z.max 0 (Retries (Maxlag w) - tries))).
  - intros tries p0 σ _ _. exists 0%nat. cbn. rewrite app_nil_r. split; [done|lia].
  - intros tries p0 σ r e p' σ' Hlt Hc _ Hp.
    destruct (callf_effects _ _ _ _ _ _ _ _ Hc) as (_ & _ & [Hs|Hs]).
    + exists 0%nat. cbn. rewrite Hs, app_nil_r. split; [done|lia].
    + exists 1%nat. cbn. rewrite Hs, Hp. split; [done|lia].
  - intros tries p0 σ r m wt p' σ' res Hlt Hc IH Hp.
    destruct (callf_lag_effects _ _ _ _ _ _ _ _ _ _ Hc) as (_ & -> & Hs & _ & _).
    destruct IH as (k & Hk & Hb).
    { by rewrite augment_idem. }
    exists (S k). split; [|lia].
    rewrite Hk. case_match; world_simpl; rewrite Hs, Hp, <- app_assoc; done.
Qed.

Lemma call_sent w p post σ :
  ∃ k : nat,
    sent (call X w p post σ).2 =
      sent σ ++ replicate k (build_request X w post (augment w p)).
Proof.
  unfold call. destruct (On (Maxlag w)).
  - destruct (retry_from_sent w post p 0 p σ eq_refl) as (k & Hk & _). eauto.
  - destruct (callf X w post p σ) as [[r p'] σ'] eqn:Hc.
    destruct (callf_effects _ _ _ _ _ _ _ _ Hc) as (_ & _ & [Hs|Hs]).
    + exists 0%nat. cbn. by rewrite Hs, app_nil_r.
    + exists 1%nat. cbn. by rewrite Hs.
Qed.

(** [call] returns a body or an error, never both, never neither. *)
Lemma call_body_or_err w p post σ r e p' σ' :
  call X w p post σ = ((r, e), p', σ') →
  (is_Some r ∧ e = None) ∨ (r = None ∧ is_Some e).
Proof.
  unfold call. destruct (On (Maxlag w)).
  - revert r e p' σ'.
    apply (retry_loop_ind X w post (fun _ _ _ res =>
      ∀ r e p' σ', res = ((r, e), p', σ') →
        (is_Some r ∧ e = None) ∨ (r = None ∧ is_Some e))).
    + intros; simplify_eq; eauto.
    + intros; simplify_eq; eauto using callf_body_or_err.
    + auto.
  - apply callf_body_or_err.
Qed.

(** Without a debug writer the body [call] returns is the stream of the
    transport, never a copy in memory. *)
Lemma callf_body_live w post p σ b e p' σ' :
  debug w = false →
  callf X w post p σ = ((Some b, e), p', σ') → rc_buffered b = false.
Proof.
  unfold callf, dump_response, handle_response, ReadAll. intros Hdb H.
  rewrite Hdb in H. cbn in H. repeat case_match; by simplify_eq.
Qed.

Lemma call_body_live w p post σ b e p' σ' :
  debug w = false →
  call X w p post σ = ((Some b, e), p', σ') → rc_buffered b = false.
Proof.
  intros Hdb. unfold call. destruct (On (Maxlag w)).
  - revert e p' σ'.
    apply (retry_loop_ind X w post (fun _ _ _ res =>
      ∀ e p' σ', res = ((Some b, e), p', σ') → rc_buffered b = false)).
    + intros; simplify_eq.
    + intros; simplify_eq; eauto using callf_body_live.
    + auto.
  - by apply callf_body_live.
Qed.

(** With a nil error [callJSON] returns a document: the dereference in
    [Login] is safe. *)
Lemma callJSON_doc_or_err w p post σ r p' σ' :
  callJSON X w p post σ = ((r, None), p', σ') → is_Some r.
Proof.
  unfold callJSON, NewObjectFromReader. intros H.
  destruct (call X w p post σ) as [[[b e] q] τ] eqn:Hc.
  destruct (call_body_or_err _ _ _ _ _ _ _ _ Hc) as [[[b' ->] ->]|[-> [e' ->]]];
    [|by simplify_eq].
  repeat case_match; simplify_eq; eauto.
Qed.
End Call.

(** *** The claims *)

(** C1, as the code has it: when the body of a successful call decodes to a
    document and the error classifier reports an error for it (a top-level
    error or a non-empty warnings envelope), [callJSON], and so [Get] and
    [Post], returns that error together with the decoded document itself,
    not with a nil document, after closing the body: without a debug writer
    that closes the stream of the transport, with one the body may be the
    copy in memory the dump left, whose stream is closed already. *)
Theorem callJSON_returns_document_with_api_error
  (X : Extern) (w : Client) (p : Values) (post : bool) (σ : World)
  (body : ReadCloser) (p' : Values) (σ' : World) (js : Object) (e : error) :
  call X w p post σ = ((Some body, None), p', σ') →
  jason_decode X (rc_bytes body) (rc_err body) = Some js →
  extractAPIErrors js = Some e →
  callJSON X w p post σ = ((Some js, Some e), p', Close body σ') ∧
  (debug w = false →
     callJSON X w p post σ = ((Some js, Some e), p', do_close (rc_id body) σ')) ∧
  Get X w p σ = callJSON X w p false σ ∧
  Post X w p σ = callJSON X w p true σ.
Proof.
  intros Hc Hd He.
  assert (H : callJSON X w p post σ = ((Some js, Some e), p', Close body σ')).
  { unfold callJSON, NewObjectFromReader. by rewrite Hc, Hd, He. }
  split; [done|]. split; [|done].
  intros Hdb. rewrite H. unfold Close.
  by rewrite (call_body_live X w p post σ body None p' σ' Hdb Hc).
Qed.

(** The theorem on a [POST] answered with the error body. *)
Lemma callJSON_returns_document_with_api_error_witness :
  callJSON Ex.X (Ex.client (Ex.always (Ex.ok_response Ex.error_body))) ∅ true world0
  = ((Some Ex.error_doc, Some (APIError "badtoken" "Invalid token")),
     augment (Ex.client (Ex.always (Ex.ok_response Ex.error_body))) ∅,
     do_close 0
       (call Ex.X (Ex.client (Ex.always (Ex.ok_response Ex.error_body))) ∅ true
          world0).2).
Proof.
  refine (proj1 (proj2 (callJSON_returns_document_with_api_error Ex.X
            (Ex.client (Ex.always (Ex.ok_response Ex.error_body))) ∅ true world0
            {| rc_id := 0; rc_bytes := Ex.error_body; rc_err := None;
               rc_buffered := false |}
            _ _ Ex.error_doc (APIError "badtoken" "Invalid token") _ _ _))
            eq_refl).
  - reflexivity.
  - reflexivity.
  - reflexivity.
Defined.

(** C1, as stated, fails: on the body
    [{"error":{"code":"badtoken","info":"Invalid token"}}] the JSON decoder
    returns the application error and, with it, the parsed document. *)
Lemma callJSON_error_body_document_not_nil :
  (callJSON Ex.X (Ex.client (Ex.always (Ex.ok_response Ex.error_body))) ∅ false
     world0).1.1
  = (Some Ex.error_doc, Some (APIError "badtoken" "Invalid token")) ∧
  (callJSON Ex.X (Ex.client (Ex.always (Ex.ok_response Ex.error_body))) ∅ false
     world0).1.1.1 ≠ None.
Proof. split; [vm_compute; reflexivity | vm_compute; discriminate]. Qed.

(** C2: with maxlag on, three retries and a transport that answers each of
    the three requests of the call with the lag signal and [Retry-After: 5],
    [call] hands the request to the transport exactly three times, sleeps
    exactly twice, five seconds each, once after the first attempt and once
    after the second and not after the third, and fails with [ErrAPIBusy],
    which is neither an [APIError] nor a transport error. *)
Theorem call_busy_after_three_lagged_attempts
  (X : Extern) (w : Client) (p : Values) (post : bool) (σ : World) :
  On (Maxlag w) = true →
  Retries (Maxlag w) = 3 →
  NewRequest_err X (request_url X w post (augment w p)) = None →
  (∀ i, (i < 3)%nat → ∃ resp,
     httpc w (sent σ ++ replicate i (build_request X w post (augment w p)))
       (build_request X w post (augment w p)) = DoOK resp ∧
     Header_Get (RespHeader resp) "X-Database-Lag" ≠ EmptyString ∧
     Header_Get (RespHeader resp) "Retry-After" = "5" ∧
     RespReadErr resp = None) →
  ∃ σ',
    call X w p post σ = ((None, Some ErrAPIBusy), augment w p, σ') ∧
    sent σ' = sent σ ++ replicate 3 (build_request X w post (augment w p)) ∧
    slept σ' = slept σ ++ [5 * Second; 5 * Second] ∧
    closed σ' = closed σ ++ seq (length (sent σ)) 3 ∧
    timeline σ' =
      timeline σ ++
      [EvSend (build_request X w post (augment w p));
       EvClose (length (sent σ));
       EvSleep (5 * Second);
       EvSend (build_request X w post (augment w p));
       EvClose (S (length (sent σ)));
       EvSleep (5 * Second);
       EvSend (build_request X w post (augment w p));
       EvClose (S (S (length (sent σ))))] ∧
    is_transport_error ErrAPIBusy = false ∧
    (∀ code info, ErrAPIBusy ≠ APIError code info).
Proof.
  intros Hon Hr Hurl Hlag.
  assert (Hlag' : ∀ i, (i < 3)%nat → ∃ resp,
    httpc w (sent σ ++ replicate i (build_request X w post (augment w p)))
      (build_request X w post (augment w p)) = DoOK resp ∧ signals_lag resp 5).
  { intros i Hi. destruct (Hlag i Hi) as (resp & Hd & Hh & Ha & Hb).
    exists resp. split; [done|]. split; [done|]. by rewrite Ha. }
  clear Hlag. unfold call. rewrite Hon.
  set (req := build_request X w post (augment w p)) in *.
  (* first attempt *)
  destruct (Hlag' 0%nat ltac:(lia)) as (r0 & Hd0 & Hl0).
  cbn [replicate] in Hd0. rewrite app_nil_r in Hd0.
  assert (H0 : 0 < Retries (Maxlag w)) by lia.
  rewrite (retry_from_lag X w post 0 p σ None (RespBytes r0) 5 (augment w p) _ H0
             (callf_lag X w post p σ r0 5 Hurl Hd0 Hl0)).
  rewrite Hr. change (0 <? 3 - 1) with true. cbv iota.
  set (σ1 := do_sleep _ _).
  assert (Hs1 : sent σ1 = sent σ ++ [req]) by (subst σ1; by world_simpl).
  (* second attempt *)
  destruct (Hlag' 1%nat ltac:(lia)) as (r1 & Hd1 & Hl1).
  cbn [replicate] in Hd1. rewrite <- Hs1 in Hd1.
  pose proof (callf_lag X w post (augment w p) σ1 r1 5) as Hc1.
  rewrite augment_idem in Hc1. specialize (Hc1 Hurl Hd1 Hl1).
  assert (H1 : 0 + 1 < Retries (Maxlag w)) by lia.
  rewrite (retry_from_lag X w post (0 + 1) _ _ None _ _ _ _ H1 Hc1).
  rewrite Hr. change (0 + 1 <? 3 - 1) with true. cbv iota.
  set (σ2 := do_sleep (seconds 5) (lag_world _ _ r1 _)).
  assert (Hs2 : sent σ2 = sent σ ++ [req; req]).
  { subst σ2. world_simpl. by rewrite Hs1, <- app_assoc. }
  (* third attempt *)
  destruct (Hlag' 2%nat ltac:(lia)) as (r2 & Hd2 & Hl2).
  cbn [replicate] in Hd2. rewrite <- Hs2 in Hd2.
  pose proof (callf_lag X w post (augment w p) σ2 r2 5) as Hc2.
  rewrite augment_idem in Hc2. specialize (Hc2 Hurl Hd2 Hl2).
  assert (H2 : 0 + 1 + 1 < Retries (Maxlag w)) by lia.
  rewrite (retry_from_lag X w post (0 + 1 + 1) _ _ None _ _ _ _ H2 Hc2).
  rewrite Hr. change (0 + 1 + 1 <? 3 - 1) with false. cbv iota.
  rewrite retry_from_exhausted by lia.
  eexists. split; [done|].
  subst σ2 σ1. world_simpl. rewrite !length_app. cbn [length replicate seq].
  rewrite <- !app_assoc. cbn [app].
  replace (length (sent σ) + 1)%nat with (S (length (sent σ))) by lia.
  replace (S (length (sent σ)) + 1)%nat with (S (S (length (sent σ)))) by lia.
  repeat split; done.
Qed.

(** The theorem on a server that always answers with lag and
    [Retry-After: 5]. *)
Lemma call_busy_after_three_lagged_attempts_witness :
  ∃ σ',
    call Ex.X (Ex.with_maxlag true 3 (Ex.client (Ex.always (Ex.lag_response "7" "5"))))
      ∅ false world0
    = ((None, Some ErrAPIBusy),
       augment (Ex.with_maxlag true 3 (Ex.client (Ex.always (Ex.lag_response "7" "5")))) ∅,
       σ') ∧
    length (sent σ') = 3%nat ∧
    slept σ' = [5000000000; 5000000000].
Proof.
  destruct (call_busy_after_three_lagged_attempts Ex.X
              (Ex.with_maxlag true 3 (Ex.client (Ex.always (Ex.lag_response "7" "5"))))
              ∅ false world0)
    as (σ' & Hc & Hs & Hz & _).
  - reflexivity.
  - reflexivity.
  - reflexivity.
  - intros i _. exists (Ex.lag_response "7" "5").
    repeat split; vm_compute; congruence.
  - exists σ'. rewrite Hs, Hz. split; [exact Hc|]. split; reflexivity.
Defined.

(** C3: with maxlag on and three retries, when the first dispatch is
    answered with the lag signal and the second with a response without it,
    [call] returns the body of the second response and no error, having
    slept exactly once (for the time the first response asked for, between
    the two requests) and sent exactly two requests; and at any attempt of
    the loop, a dispatch whose outcome is not the lag signal, be it a body
    or any other error, is returned as it is, with the world as that
    dispatch left it. The body returned is the stream of the transport,
    not closed, when there is no debug writer, and what the dump of the
    response left in its place when there is one. *)
Theorem call_returns_first_outcome_without_lag (X : Extern) (w : Client) :
  (∀ (p : Values) (post : bool) (σ : World) (lagged ok : Response) (n : Z),
     On (Maxlag w) = true →
     Retries (Maxlag w) = 3 →
     NewRequest_err X (request_url X w post (augment w p)) = None →
     httpc w (sent σ) (build_request X w post (augment w p)) = DoOK lagged →
     signals_lag lagged n →
     httpc w (sent σ ++ [build_request X w post (augment w p)])
       (build_request X w post (augment w p)) = DoOK ok →
     Header_Get (RespHeader ok) "X-Database-Lag" = EmptyString →
     ∃ σ',
       call X w p post σ =
         ((Some (received_body w ok (S (length (sent σ)))), None),
          augment w p, σ') ∧
       rc_id (received_body w ok (S (length (sent σ)))) = S (length (sent σ)) ∧
       (RespReadErr ok = None →
          rc_bytes (received_body w ok (S (length (sent σ)))) = RespBytes ok ∧
          rc_err (received_body w ok (S (length (sent σ)))) = None) ∧
       (debug w = false →
          received_body w ok (S (length (sent σ))) =
            {| rc_id := S (length (sent σ)); rc_bytes := RespBytes ok;
               rc_err := RespReadErr ok; rc_buffered := false |}) ∧
       sent σ' = sent σ ++ replicate 2 (build_request X w post (augment w p)) ∧
       slept σ' = slept σ ++ [seconds n] ∧
       closed σ' =
         closed σ ++ [length (sent σ)] ++ dump_closes w ok (S (length (sent σ))) ∧
       (debug w = false → closed σ' = closed σ ++ [length (sent σ)]) ∧
       timeline σ' =
         timeline σ ++
         [EvSend (build_request X w post (augment w p));
          EvClose (length (sent σ));
          EvSleep (seconds n);
          EvSend (build_request X w post (augment w p))] ++
         (EvClose <$> dump_closes w ok (S (length (sent σ))))) ∧
  (∀ (post : bool) (tries : Z) (p : Values) (σ : World) r e p' σ',
     tries < Retries (Maxlag w) →
     callf X w post p σ = ((r, e), p', σ') →
     as_maxLagError e = None →
     retry_from X w post tries p σ = ((r, e), p', σ')).
Proof.
  split; [|intros; by apply retry_from_return].
  intros p post σ lagged ok n Hon Hr Hurl Hd1 Hl Hd2 Hok.
  unfold call. rewrite Hon.
  assert (H0 : 0 < Retries (Maxlag w)) by lia.
  rewrite (retry_from_lag X w post 0 p σ None (RespBytes lagged) n (augment w p)
             _ H0 (callf_lag X w post p σ lagged n Hurl Hd1 Hl)).
  rewrite Hr. change (0 <? 3 - 1) with true. cbv iota.
  set (σ1 := do_sleep _ _).
  assert (Hs1 : sent σ1 = sent σ ++ [build_request X w post (augment w p)]).
  { subst σ1. by world_simpl. }
  assert (Hl1 : length (sent σ1) = S (length (sent σ))).
  { rewrite Hs1, length_app. cbn. lia. }
  assert (Hc : callf X w post (augment w p) σ1 =
    ((Some (received_body w ok (S (length (sent σ)))), None), augment w p,
     answered_world w (build_request X w post (augment w p)) ok σ1)).
  { rewrite (callf_do_ok X w post (augment w p) σ1 ok); rewrite augment_idem, ?Hs1;
      [|done..].
    unfold handle_response. rewrite Hok. cbn. by rewrite <- Hs1, Hl1. }
  assert (H1 : 0 + 1 < Retries (Maxlag w)) by lia.
  rewrite (retry_from_return X w post (0 + 1) _ _ _ _ _ _ H1 Hc eq_refl).
  eexists; split; [done|].
  split; [apply received_body_closes|].
  split; [intros Hread; by destruct (received_body_readable w ok
                                       (S (length (sent σ))) Hread)|].
  split; [intros Hdb; unfold received_body; by rewrite Hdb|].
  subst σ1. world_simpl. rewrite !length_app. cbn [length].
  replace (length (sent σ) + 1)%nat with (S (length (sent σ))) by lia.
  rewrite <- !app_assoc. cbn [app replicate].
  repeat split; try done.
  intros Hdb. unfold dump_closes. by rewrite Hdb.
Qed.

(** The theorem on a server that lags once. *)
Lemma call_returns_first_outcome_without_lag_witness :
  ∃ σ',
    call Ex.X (Ex.with_maxlag true 3 (Ex.client (Ex.lag_once "5" "{}"))) ∅ false world0
    = ((Some {| rc_id := 1; rc_bytes := "{}"; rc_err := None;
                rc_buffered := false |}, None),
       augment (Ex.with_maxlag true 3 (Ex.client (Ex.lag_once "5" "{}"))) ∅, σ') ∧
    length (sent σ') = 2%nat ∧
    slept σ' = [5000000000] ∧
    closed σ' = [0%nat].
Proof.
  destruct (proj1 (call_returns_first_outcome_without_lag Ex.X
                     (Ex.with_maxlag true 3 (Ex.client (Ex.lag_once "5" "{}"))))
              ∅ false world0 (Ex.lag_response "7" "5") (Ex.ok_response "{}") 5)
    as (σ' & Hc & _ & _ & _ & Hs & Hz & _ & Hcl & _).
  - reflexivity.
  - reflexivity.
  - reflexivity.
  - reflexivity.
  - repeat split; vm_compute; congruence.
  - reflexivity.
  - reflexivity.
  - exists σ'. rewrite Hs, Hz, (Hcl eq_refl). split; [exact Hc|]. repeat split.
Defined.

(** C10: with maxlag on and a retry budget of zero or less, [call] makes no
    attempt: nothing is handed to the transport, nothing sleeps, the
    caller's parameters are not touched, and the call fails with
    [ErrAPIBusy]. *)
Theorem call_busy_without_attempt_when_no_retries
  (X : Extern) (w : Client) (p : Values) (post : bool) (σ : World) :
  On (Maxlag w) = true →
  Retries (Maxlag w) <= 0 →
  call X w p post σ = ((None, Some ErrAPIBusy), p, σ).
Proof.
  intros Hon Hr. unfold call. rewrite Hon. by apply retry_from_exhausted.
Qed.

(** The theorem on a client with a retry budget of zero. *)
Lemma call_busy_without_attempt_when_no_retries_witness :
  call Ex.X (Ex.with_maxlag true 0 (Ex.client (Ex.always (Ex.ok_response "{}"))))
    ∅ true world0
  = ((None, Some ErrAPIBusy), ∅, world0).
Proof.
  apply (call_busy_without_attempt_when_no_retries Ex.X
           (Ex.with_maxlag true 0 (Ex.client (Ex.always (Ex.ok_response "{}"))))
           ∅ true world0).
  - reflexivity.
  - vm_compute. discriminate.
Defined.

(** C6: with maxlag off, [call] is one run of the dispatcher: it hands at
    most one request to the transport and never sleeps; and when that
    request is answered with the lag signal (which a caller can provoke with
    a [maxlag] parameter of its own), the [maxLagError] is what [call]
    returns as its error, after exactly one request and no sleep. *)
Theorem call_without_maxlag_dispatches_once
  (X : Extern) (w : Client) (p : Values) (post : bool) (σ : World) :
  On (Maxlag w) = false →
  call X w p post σ = callf X w post p σ ∧
  slept (call X w p post σ).2 = slept σ ∧
  (sent (call X w p post σ).2 = sent σ ∨
   sent (call X w p post σ).2 = sent σ ++ [build_request X w post (augment w p)]) ∧
  (∀ resp n,
     NewRequest_err X (request_url X w post (augment w p)) = None →
     httpc w (sent σ) (build_request X w post (augment w p)) = DoOK resp →
     signals_lag resp n →
     (call X w p post σ).1 =
       ((None, Some (maxLagError (RespBytes resp) n)), augment w p) ∧
     sent (call X w p post σ).2 =
       sent σ ++ [build_request X w post (augment w p)] ∧
     slept (call X w p post σ).2 = slept σ).
Proof.
  intros Hoff. unfold call. rewrite Hoff. split; [done|].
  destruct (callf X w post p σ) as [[r p'] σ'] eqn:Hc.
  destruct (callf_effects _ _ _ _ _ _ _ _ Hc) as (Hp & Hz & Hs).
  split; [done|]. split; [done|].
  intros resp n Hurl Hd Hl.
  rewrite (callf_lag X w post p σ resp n Hurl Hd Hl) in Hc. simplify_eq.
  by world_simpl.
Qed.

(** The theorem on a caller that sets [maxlag] itself, maxlag being off. *)
Lemma call_without_maxlag_dispatches_once_witness :
  (call Ex.X (Ex.client (Ex.always (Ex.lag_response "7" "5")))
     {["maxlag" := "1"]} false world0).1.1
  = (None, Some (maxLagError "lagged" 5)) ∧
  slept (call Ex.X (Ex.client (Ex.always (Ex.lag_response "7" "5")))
           {["maxlag" := "1"]} false world0).2 = [] ∧
  length (sent (call Ex.X (Ex.client (Ex.always (Ex.lag_response "7" "5")))
                  {["maxlag" := "1"]} false world0).2) = 1%nat.
Proof.
  destruct (call_without_maxlag_dispatches_once Ex.X
              (Ex.client (Ex.always (Ex.lag_response "7" "5")))
              {["maxlag" := "1"]} false world0 eq_refl)
    as (_ & _ & _ & H).
  destruct (H (Ex.lag_response "7" "5") 5) as (Hr & Hs & Hz).
  - reflexivity.
  - reflexivity.
  - repeat split; vm_compute; congruence.
  - rewrite Hr, Hs, Hz. repeat split.
Defined.

(** C4, as the code has it: with maxlag on, the dispatcher sets
    [maxlag=<Maxlag.Timeout>] exactly when [p.Get("maxlag")] is the empty
    string, that is when the caller left the key out or set it to the empty
    string; a non-empty [maxlag] of the caller is never overwritten; with
    maxlag off the entry is left as the caller set it; and every request of
    the call carries the encoding of the parameters so augmented. *)
Theorem maxlag_parameter_filled_when_empty
  (X : Extern) (w : Client) (p : Values) (post : bool) (σ : World) :
  (On (Maxlag w) = true → Values_Get p "maxlag" = EmptyString →
     augment w p !! "maxlag" = Some (Timeout (Maxlag w))) ∧
  (On (Maxlag w) = true → Values_Get p "maxlag" ≠ EmptyString →
     augment w p !! "maxlag" = p !! "maxlag") ∧
  (On (Maxlag w) = false → augment w p !! "maxlag" = p !! "maxlag") ∧
  (∃ k : nat,
     sent (call X w p post σ).2 =
       sent σ ++ replicate k (build_request X w post (augment w p))) ∧
  ReqBody (build_request X w post (augment w p)) =
    (if post then Some (Encode X (augment w p)) else None) ∧
  URL (build_request X w post (augment w p)) =
    (if post then apiURL w
     else String.append (apiURL w) (String.append "?" (Encode X (augment w p)))).
Proof.
  rewrite augment_maxlag. repeat split.
  - intros -> ->. done.
  - intros -> Hne. by destruct (String.eqb_spec (Values_Get p "maxlag") EmptyString).
  - by intros ->.
  - apply call_sent.
Qed.

(** The theorem on a caller that sets [maxlag=2] and on one that sets no
    [maxlag]. *)
Lemma maxlag_parameter_filled_when_empty_witness :
  augment (Ex.with_maxlag true 3 (Ex.client Ex.unreachable)) {["maxlag" := "2"]}
    !! "maxlag" = Some "2" ∧
  augment (Ex.with_maxlag true 3 (Ex.client Ex.unreachable)) {["action" := "query"]}
    !! "maxlag" = Some "5".
Proof.
  split.
  - refine (proj1 (proj2 (maxlag_parameter_filled_when_empty Ex.X
             (Ex.with_maxlag true 3 (Ex.client Ex.unreachable))
             {["maxlag" := "2"]} false world0)) _ _).
    + reflexivity.
    + vm_compute. discriminate.
  - refine (proj1 (maxlag_parameter_filled_when_empty Ex.X
             (Ex.with_maxlag true 3 (Ex.client Ex.unreachable))
             {["action" := "query"]} false world0) _ _).
    + reflexivity.
    + reflexivity.
Defined.

(** C4, as stated, fails: a caller that has set the [maxlag] key, to the
    empty string, finds it overwritten with the configured timeout, in its
    own map and in the request sent. *)
Lemma caller_empty_maxlag_is_overwritten :
  ({["maxlag" := EmptyString]} : Values) !! "maxlag" = Some EmptyString ∧
  augment (Ex.with_maxlag true 3 (Ex.client Ex.unreachable))
    {["maxlag" := EmptyString]} !! "maxlag" = Some "5" ∧
  (call Ex.X (Ex.with_maxlag true 3 (Ex.client Ex.unreachable))
     {["maxlag" := EmptyString]} false world0).1.2 !! "maxlag" = Some "5" ∧
  URL <$> sent (call Ex.X (Ex.with_maxlag true 3 (Ex.client Ex.unreachable))
                  {["maxlag" := EmptyString]} false world0).2
  = ["https://wiki.example/w/api.php?maxlag=5&utf8=&format=json&"].
Proof. repeat split; vm_compute; reflexivity. Qed.

(** C5: every request a call hands to the transport is the request built
    from the augmented parameters, which carries their encoding, as its
    query for a [GET] and as its body for a [POST]; in these parameters
    [assert] is [user] when the mode is [AssertUser] and [bot] when it is
    [AssertBot]; when the mode is [AssertNone] the dispatcher adds no
    [assert]: the entry is as the caller left it, absent if the caller set
    none. *)
Theorem assert_parameter_follows_mode
  (X : Extern) (w : Client) (p : Values) (post : bool) (σ : World) :
  (∃ k : nat,
     sent (call X w p post σ).2 =
       sent σ ++ replicate k (build_request X w post (augment w p))) ∧
  ReqBody (build_request X w post (augment w p)) =
    (if post then Some (Encode X (augment w p)) else None) ∧
  URL (build_request X w post (augment w p)) =
    (if post then apiURL w
     else String.append (apiURL w) (String.append "?" (Encode X (augment w p)))) ∧
  (Assert w = AssertUser → augment w p !! "assert" = Some "user") ∧
  (Assert w = AssertBot → augment w p !! "assert" = Some "bot") ∧
  (Assert w = AssertNone → augment w p !! "assert" = p !! "assert") ∧
  (Assert w = AssertNone → p !! "assert" = None →
     augment w p !! "assert" = None).
Proof.
  split; [apply call_sent|]. split; [done|]. split; [done|].
  rewrite augment_assert. repeat split; intros ->; done.
Qed.

(** The theorem in each of the three modes. *)
Lemma assert_parameter_follows_mode_witness :
  augment (set_Assert AssertUser (Ex.client Ex.unreachable)) ∅ !! "assert"
    = Some "user" ∧
  augment (set_Assert AssertBot (Ex.client Ex.unreachable)) ∅ !! "assert"
    = Some "bot" ∧
  augment (Ex.client Ex.unreachable) ∅ !! "assert" = None.
Proof.
  destruct (assert_parameter_follows_mode Ex.X
              (set_Assert AssertUser (Ex.client Ex.unreachable)) ∅ false world0)
    as (_ & _ & _ & Hu & _).
  destruct (assert_parameter_follows_mode Ex.X
              (set_Assert AssertBot (Ex.client Ex.unreachable)) ∅ false world0)
    as (_ & _ & _ & _ & Hb & _).
  destruct (assert_parameter_follows_mode Ex.X
              (Ex.client Ex.unreachable) ∅ false world0)
    as (_ & _ & _ & _ & _ & _ & Hn).
  split; [|split].
  - exact (Hu eq_refl).
  - exact (Hb eq_refl).
  - exact (Hn eq_refl eq_refl).
Defined.

(** C9, as the code has it: for a response the transport returned, the
    dispatcher takes the maxlag branch exactly when
    [Header.Get("X-Database-Lag")] is not the empty string (a header that is
    absent, or present with an empty value, does not count). In that branch
    no body is returned and the stream of the transport is closed, once, on
    every exit: the call fails with the [strconv] error when [Retry-After]
    is not a base-10 integer, with the read error when the body cannot be
    drained, and otherwise with the maxlag signal that holds the drained
    body and the integer read. Outside the branch the body is returned:
    without a debug writer it is the live stream of the transport, not
    closed; with a debug writer it is what the dump of the response left,
    the copy in memory of a stream that was read to its end and closed, or
    the consumed stream, not closed, when reading it failed. So the signal
    is returned exactly when the header value is non-empty, [Retry-After]
    is an integer and the body was drained. *)
Theorem dispatcher_classifies_response
  (X : Extern) (w : Client) (post : bool) (p : Values) (σ : World)
  (resp : Response) :
  NewRequest_err X (request_url X w post (augment w p)) = None →
  httpc w (sent σ) (build_request X w post (augment w p)) = DoOK resp →
  (Header_Get (RespHeader resp) "X-Database-Lag" = EmptyString →
     (callf X w post p σ).1.1 =
       (Some (received_body w resp (length (sent σ))), None) ∧
     closed (callf X w post p σ).2 =
       closed σ ++ dump_closes w resp (length (sent σ))) ∧
  (debug w = false →
     received_body w resp (length (sent σ)) =
       {| rc_id := length (sent σ); rc_bytes := RespBytes resp;
          rc_err := RespReadErr resp; rc_buffered := false |} ∧
     dump_closes w resp (length (sent σ)) = []) ∧
  (debug w = true → RespReadErr resp = None →
     received_body w resp (length (sent σ)) =
       {| rc_id := length (sent σ); rc_bytes := RespBytes resp;
          rc_err := None; rc_buffered := true |} ∧
     dump_closes w resp (length (sent σ)) = [length (sent σ)]) ∧
  (debug w = true → ∀ e, RespReadErr resp = Some e →
     received_body w resp (length (sent σ)) =
       {| rc_id := length (sent σ); rc_bytes := EmptyString;
          rc_err := Some e; rc_buffered := false |} ∧
     dump_closes w resp (length (sent σ)) = []) ∧
  (Header_Get (RespHeader resp) "X-Database-Lag" ≠ EmptyString →
     (callf X w post p σ).1.1.1 = None ∧
     closed (callf X w post p σ).2 = closed σ ++ [length (sent σ)] ∧
     (Atoi (Header_Get (RespHeader resp) "Retry-After") = None →
        (callf X w post p σ).1.1.2 =
          Some (NumError (Header_Get (RespHeader resp) "Retry-After"))) ∧
     (∀ n e, Atoi (Header_Get (RespHeader resp) "Retry-After") = Some n →
        RespReadErr resp = Some e →
        (callf X w post p σ).1.1.2 = Some (ErrReadBody e)) ∧
     (∀ n, Atoi (Header_Get (RespHeader resp) "Retry-After") = Some n →
        RespReadErr resp = None →
        (callf X w post p σ).1.1.2 = Some (maxLagError (RespBytes resp) n))) ∧
  ((∃ m n, (callf X w post p σ).1.1.2 = Some (maxLagError m n)) ↔
   (∃ n, signals_lag resp n)).
Proof.
  intros Hurl Hd. rewrite (callf_do_ok X w post p σ resp Hurl Hd).
  set (req := build_request X w post (augment w p)).
  assert (Hbody : rc_err (received_body w resp (length (sent σ))) =
                    RespReadErr resp ∧
                  (RespReadErr resp = None →
                   rc_bytes (received_body w resp (length (sent σ))) =
                     RespBytes resp)).
  { unfold received_body, drained, transport_body.
    by destruct (debug w), (RespReadErr resp). }
  destruct Hbody as [Herr Hbytes].
  split; [|split; [|split; [|split]]].
  - intros He. unfold handle_response. rewrite He. cbn.
    by rewrite closed_answered_world.
  - intros Hdb. unfold received_body, dump_closes. by rewrite Hdb.
  - intros Hdb Hr. unfold received_body, dump_closes, drained, transport_body.
    cbn. by rewrite Hdb, Hr.
  - intros Hdb e Hr. unfold received_body, dump_closes, drained, transport_body.
    cbn. by rewrite Hdb, Hr.
  - unfold handle_response, ReadAll, signals_lag. rewrite Herr.
    fold (lag_world w req resp σ).
    destruct (String.eqb_spec (Header_Get (RespHeader resp) "X-Database-Lag")
                EmptyString) as [He|Hne]; cbn [negb].
    + split; [done|]. cbn. split.
      * by intros (? & ? & ?).
      * by intros (? & ? & ?).
    + split.
      * intros _.
        destruct (Atoi _) as [n|], (RespReadErr resp) as [e|] eqn:Hr;
          cbn; fold (lag_world w req resp σ); rewrite closed_lag_world;
          repeat split; intros; simplify_eq; try done.
        by rewrite Hbytes.
      * destruct (Atoi _) as [n|], (RespReadErr resp) as [e|] eqn:Hr; cbn; split;
          try (intros (? & ? & ?); by simplify_eq);
          try (intros (? & ? & ? & ?); by simplify_eq).
        -- intros _. by exists n.
        -- intros _. by eexists _, _.
Qed.

(** The theorem on a lag response that asks for five seconds and on one
    whose [Retry-After] is not a number. *)
Lemma dispatcher_classifies_response_witness :
  (callf Ex.X (Ex.client (Ex.always (Ex.lag_response "7" "5"))) false ∅ world0).1.1.2
    = Some (maxLagError "lagged" 5) ∧
  closed (callf Ex.X (Ex.client (Ex.always (Ex.lag_response "7" "5"))) false ∅
            world0).2 = [0%nat] ∧
  (callf Ex.X (Ex.client (Ex.always (Ex.lag_response "7" "soon"))) false ∅ world0).1.1.2
    = Some (NumError "soon").
Proof.
  destruct (dispatcher_classifies_response Ex.X
              (Ex.client (Ex.always (Ex.lag_response "7" "5"))) false ∅ world0
              (Ex.lag_response "7" "5") eq_refl eq_refl) as (_ & _ & _ & _ & H & _).
  destruct H as (_ & Hc & _ & _ & Hs); [vm_compute; discriminate|].
  destruct (dispatcher_classifies_response Ex.X
              (Ex.client (Ex.always (Ex.lag_response "7" "soon"))) false ∅ world0
              (Ex.lag_response "7" "soon") eq_refl eq_refl)
    as (_ & _ & _ & _ & H' & _).
  destruct H' as (_ & _ & Hn & _); [vm_compute; discriminate|].
  split; [|split].
  - exact (Hs 5 eq_refl eq_refl).
  - exact Hc.
  - exact (Hn eq_refl).
Defined.

(** C9, as stated, fails: a response whose [X-Database-Lag] header is
    present with an empty value is not treated as lag; the live body is
    returned and nothing is closed. *)
Lemma empty_lag_header_is_no_signal :
  RespHeader (Ex.lag_response EmptyString "5") !! "X-Database-Lag"
    = Some [EmptyString] ∧
  (callf Ex.X (Ex.client (Ex.always (Ex.lag_response EmptyString "5"))) false ∅
     world0).1.1
    = (Some {| rc_id := 0; rc_bytes := "lagged"; rc_err := None;
               rc_buffered := false |}, None) ∧
  closed (callf Ex.X (Ex.client (Ex.always (Ex.lag_response EmptyString "5")))
            false ∅ world0).2 = [].
Proof. repeat split; vm_compute; reflexivity. Qed.

(** [callJSON] hands to the transport what its [call] does. *)
Lemma callJSON_sent X w p post σ :
  sent (callJSON X w p post σ).2 = sent (call X w p post σ).2.
Proof.
  unfold callJSON.
  destruct (call X w p post σ) as [[[b e] q] τ].
  repeat case_match; simplify_eq; cbn; by rewrite ?sent_Close.
Qed.

(** [Login] changes nothing of the client but the token cache and, when it
    returns nil, the mode, from [AssertNone] to [AssertUser]. *)
Lemma Login_mode X w username password σ :
  (Assert (Login X w username password σ).1.2 = Assert w) ∨
  ((Login X w username password σ).1.1 = None ∧ Assert w = AssertNone ∧
   Assert (Login X w username password σ).1.2 = AssertUser).
Proof.
  unfold Login.
  destruct (GetToken X LoginToken w σ) as [[[token e] tokens] σ1].
  destruct e; [by left|].
  destruct (Post X _ _ σ1) as [[[resp e] pp] σ2].
  destruct e, resp; try by left.
  destruct (GetString _ _); [|by left].
  destruct (negb _); [by left|]. cbn [set_Tokens Assert].
  destruct (Z.eqb_spec (Assert w) AssertNone); [by right|by left].
Qed.

(** C7, as the code has it: once the login token was fetched, [Login]
    returns nil exactly when the login [POST] returned a document without
    error (no transport or decoding error, and no error or warnings
    envelope in the document) and the [login.result] of that document reads
    as the string [Success]. When the [POST] returns an error, [Login]
    returns that error and leaves the mode unchanged. On a document returned
    without error: if [login.result] reads as [Success], [Login] returns nil,
    moves the mode from [AssertNone] to [AssertUser] and leaves any other
    mode, [AssertBot] among them, as it is; if it reads as another string,
    [Login] returns the [APIError] whose code is that string and leaves the
    mode unchanged; if it cannot be read as a string, [Login] returns an
    error and leaves the mode unchanged. *)
Theorem Login_follows_login_result
  (X : Extern) (w : Client) (username password : string) (σ : World)
  (token : string) (tokens : gmap string string) (σ1 : World) :
  GetToken X LoginToken w σ = ((token, None), tokens, σ1) →
  ((Login X w username password σ).1.1 = None ↔
   ∃ resp pp σ2,
     Post X (set_Tokens tokens w) (login_params username password token) σ1
       = ((Some resp, None), pp, σ2) ∧
     GetString resp ["login"; "result"] = Some "Success") ∧
  (∀ r e pp σ2,
     Post X (set_Tokens tokens w) (login_params username password token) σ1
       = ((r, Some e), pp, σ2) →
     (Login X w username password σ).1.1 = Some e ∧
     Assert (Login X w username password σ).1.2 = Assert w) ∧
  (∀ resp pp σ2,
     Post X (set_Tokens tokens w) (login_params username password token) σ1
       = ((Some resp, None), pp, σ2) →
     (GetString resp ["login"; "result"] = Some "Success" →
        (Login X w username password σ).1.1 = None ∧
        (Assert w = AssertNone →
           Assert (Login X w username password σ).1.2 = AssertUser) ∧
        (Assert w ≠ AssertNone →
           Assert (Login X w username password σ).1.2 = Assert w) ∧
        (Assert w = AssertBot →
           Assert (Login X w username password σ).1.2 = AssertBot)) ∧
     (∀ result, GetString resp ["login"; "result"] = Some result →
        result ≠ "Success" →
        (Login X w username password σ).1.1 = Some (APIError result EmptyString) ∧
        Assert (Login X w username password σ).1.2 = Assert w) ∧
     (GetString resp ["login"; "result"] = None →
        (Login X w username password σ).1.1 = Some ErrLoginResult ∧
        Assert (Login X w username password σ).1.2 = Assert w) ∧
     (Assert w = AssertNone →
        (Assert (Login X w username password σ).1.2 = AssertUser ↔
         GetString resp ["login"; "result"] = Some "Success"))).
Proof.
  intros Ht. unfold Login. rewrite Ht.
  destruct (Post X _ _ σ1) as [[[r e] pp] σ2]. split; [|split].
  - destruct e as [e|]; [|destruct r as [resp|]]; cbn [fst snd].
    + split; [done|]. intros (? & ? & ? & ? & ?); by simplify_eq.
    + destruct (GetString resp ["login"; "result"]) as [result|] eqn:Hg.
      * destruct (String.eqb_spec result "Success") as [->|Hne]; cbn [negb fst snd].
        -- split; [|done]. intros _. by exists resp, pp, σ2.
        -- split; [done|]. intros (? & ? & ? & ? & ?); simplify_eq; congruence.
      * split; [done|]. intros (? & ? & ? & ? & ?); simplify_eq; congruence.
    + split; [done|]. intros (? & ? & ? & ? & ?); by simplify_eq.
  - intros r' e' pp' σ2' ?; by simplify_eq.
  - intros resp pp' σ2' ?; simplify_eq.
    destruct (GetString resp ["login"; "result"]) as [result|].
    + destruct (String.eqb_spec result "Success") as [->|Hne]; cbn [negb fst snd].
      * destruct (Z.eqb_spec (Assert (set_Tokens tokens w)) AssertNone) as [Hn|Hn];
          cbn [set_Tokens set_Assert Assert] in *.
        -- repeat split; try done; intros; try congruence.
           unfold AssertBot, AssertNone in *; lia.
        -- repeat split; try done; intros; try congruence.
      * repeat split; try done; intros; simplify_eq; try done.
        cbn [set_Tokens Assert] in *. unfold AssertUser, AssertNone in *. lia.
    + cbn [fst snd set_Tokens Assert]. repeat split; try done.
      intros. unfold AssertUser, AssertNone in *. lia.
Qed.

(** The theorem on a server that answers the login with [Success]. *)
Lemma Login_follows_login_result_witness :
  (Login Ex.X (Ex.client (Ex.always (Ex.ok_response (Ex.login_body "Success"))))
     "u" "pw" world0).1.1 = None ∧
  Assert (Login Ex.X (Ex.client (Ex.always (Ex.ok_response (Ex.login_body "Success"))))
            "u" "pw" world0).1.2 = AssertUser.
Proof.
  destruct (Login_follows_login_result Ex.X
              (Ex.client (Ex.always (Ex.ok_response (Ex.login_body "Success"))))
              "u" "pw" world0 "tok" ∅ world0 eq_refl)
    as (_ & _ & H).
  destruct (H (Ex.login_doc "Success")
              (callJSON Ex.X
                 (Ex.client (Ex.always (Ex.ok_response (Ex.login_body "Success"))))
                 (login_params "u" "pw" "tok") true world0).1.2
              (callJSON Ex.X
                 (Ex.client (Ex.always (Ex.ok_response (Ex.login_body "Success"))))
                 (login_params "u" "pw" "tok") true world0).2
              eq_refl) as (Hs & _).
  destruct (Hs eq_refl) as (He & Hu & _).
  split; [exact He|exact (Hu eq_refl)].
Defined.

(** C7, as stated, fails: the server answers the login with a document
    whose [login.result] reads [Success] and which carries a warning; the
    [POST] returns the warning as its error, so [Login] returns an error and
    the mode stays [AssertNone]. *)
Lemma Login_fails_on_warned_success :
  GetString Ex.warned_login_doc ["login"; "result"] = Some "Success" ∧
  (Post Ex.X (Ex.client (Ex.always (Ex.ok_response Ex.warned_login_body)))
     (login_params "u" "pw" "tok") world0).1.1.1 = Some Ex.warned_login_doc ∧
  (Login Ex.X (Ex.client (Ex.always (Ex.ok_response Ex.warned_login_body)))
     "u" "pw" world0).1.1 ≠ None ∧
  Assert (Login Ex.X (Ex.client (Ex.always (Ex.ok_response Ex.warned_login_body)))
            "u" "pw" world0).1.2 = AssertNone.
Proof.
  split; [reflexivity|]. split; [vm_compute; reflexivity|].
  split; [vm_compute; discriminate|vm_compute; reflexivity].
Qed.

(** C8: whatever the mode was and whatever becomes of its request,
    [Logout] leaves the client exactly as it was but for the mode, which is
    [AssertNone]; it returns no result; and the requests it hands to the
    transport are the [GET] of [action=logout]. *)
Theorem Logout_resets_mode (X : Extern) (w : Client) (σ : World) :
  (Logout X w σ).1 = set_Assert AssertNone w ∧
  Assert (Logout X w σ).1 = AssertNone ∧
  (∃ k : nat,
     sent (Logout X w σ).2 =
       sent σ ++
       replicate k
         (build_request X (set_Assert AssertNone w) false
            (augment (set_Assert AssertNone w) {["action" := "logout"]}))) ∧
  Method (build_request X (set_Assert AssertNone w) false
            (augment (set_Assert AssertNone w) {["action" := "logout"]})) = "GET" ∧
  augment (set_Assert AssertNone w) {["action" := "logout"]} !! "action"
    = Some "logout".
Proof.
  unfold Logout, Get.
  pose proof (callJSON_sent X (set_Assert AssertNone w) {["action" := "logout"]}
                false σ) as Hs.
  destruct (callJSON X _ _ false σ) as [[r q] τ]. cbn [fst snd] in *.
  split; [done|]. split; [done|]. split.
  - rewrite Hs. apply call_sent.
  - split; [done|]. by rewrite augment_other.
Qed.

(** [Logout] on a client in bot mode whose transport cannot connect. *)
Example Logout_unreachable :
  Assert (Logout Ex.X (set_Assert AssertBot (Ex.client Ex.unreachable)) world0).1
    = AssertNone ∧
  Method <$> sent (Logout Ex.X (set_Assert AssertBot (Ex.client Ex.unreachable))
                     world0).2 = ["GET"].
Proof. split; vm_compute; reflexivity. Qed.

(** ** Further properties of [core.go] *)

(** *** Errors and budget of [call] *)

Section Budget.
Context (X : Extern).

(** The error of one dispatch is one of the five that [callf] builds. *)
Lemma callf_error_kinds w post p σ r e p' σ' :
  callf X w post p σ = ((r, Some e), p', σ') → is_dispatch_error e = true.
Proof.
  unfold callf, handle_response, ReadAll. intros H.
  repeat case_match; simplify_eq; done.
Qed.

Lemma retry_from_error_kinds w post tries p σ e :
  (retry_from X w post tries p σ).1.1.2 = Some e →
  (e = ErrAPIBusy ∨ is_dispatch_error e = true) ∧ as_maxLagError (Some e) = None.
Proof.
  revert e.
  apply (retry_loop_ind X w post (fun _ _ _ res => ∀ e,
    res.1.1.2 = Some e →
    (e = ErrAPIBusy ∨ is_dispatch_error e = true) ∧ as_maxLagError (Some e) = None)).
  - intros ? ? ? _ e [= <-]. auto.
  - intros tries' p0 σ0 r e0 p' σ' _ Hc He e [= ->].
    split; [right; by eapply callf_error_kinds|done].
  - auto.
Qed.

(** What the loop spends when it ends busy, and what it spends at most. *)
Lemma retry_from_spent w post tries p σ :
  ∃ a b : nat,
    length (sent (retry_from X w post tries p σ).2) = (length (sent σ) + a)%nat ∧
    length (slept (retry_from X w post tries p σ).2) = (length (slept σ) + b)%nat ∧
    (b <= a)%nat ∧
    (a <= Z.to_nat (Retries (Maxlag w) - tries))%nat ∧
    (b <= Z.to_nat (Retries (Maxlag w) - tries) - 1)%nat ∧
    ((retry_from X w post tries p σ).1.1.2 = Some ErrAPIBusy →
     a = Z.to_nat (Retries (Maxlag w) - tries) ∧
     b = (Z.to_nat (Retries (Maxlag w) - tries) - 1)%nat).
Proof.
  apply (retry_loop_ind X w post (fun tries _ σ res =>
    ∃ a b : nat,
      length (sent res.2) = (length (sent σ) + a)%nat ∧
      length (slept res.2) = (length (slept σ) + b)%nat ∧
      (b <= a)%nat ∧
      (a <= Z.to_nat (Retries (Maxlag w) - tries))%nat ∧
      (b <= Z.to_nat (Retries (Maxlag w) - tries) - 1)%nat ∧
      (res.1.1.2 = Some ErrAPIBusy →
       a = Z.to_nat (Retries (Maxlag w) - tries) ∧
       b = (Z.to_nat (Retries (Maxlag w) - tries) - 1)%nat))).
  - intros tries' p0 σ0 Hge. exists 0%nat, 0%nat. cbn. repeat split; lia.
  - intros tries' p0 σ0 r e p' σ' Hlt Hc He.
    destruct (callf_effects _ _ _ _ _ _ _ _ Hc) as (_ & Hz & Hs).
    exists (length (sent σ') - length (sent σ0))%nat, 0%nat. cbn [fst snd].
    destruct Hs as [Hs|Hs]; rewrite Hs, Hz, ?length_app; cbn [length];
      (repeat split; try lia);
      subst; by apply callf_error_kinds in Hc.
  - intros tries' p0 σ0 r m wt p' σ' res Hlt Hc (a & b & Ha & Hb & Hab & Hal & Hbl & Hbusy).
    destruct (callf_lag_effects _ _ _ _ _ _ _ _ _ _ Hc) as (_ & _ & Hs & Hz & _).
    destruct (Z.ltb_spec tries' (Retries (Maxlag w) - 1)) as [Hl|Hl];
      world_simpl; rewrite Hs, ?Hz, ?length_app in *; cbn [length] in *.
    + exists (S a), (S b). repeat split; try lia;
        match goal with B : _ = Some ErrAPIBusy |- _ => apply Hbusy in B end; lia.
    + exists (S a), b. repeat split; try lia;
        match goal with B : _ = Some ErrAPIBusy |- _ => apply Hbusy in B end; lia.
Qed.

(** The errors of [call], by the state of maxlag. *)
Lemma call_errors w p post σ e :
  (call X w p post σ).1.1.2 = Some e →
  is_api_error e = false ∧
  (On (Maxlag w) = true →
     (e = ErrAPIBusy ∨ is_dispatch_error e = true) ∧
     as_maxLagError (Some e) = None) ∧
  (On (Maxlag w) = false → is_dispatch_error e = true).
Proof.
  unfold call. destruct (On (Maxlag w)) eqn:Hon; intros He.
  - destruct (retry_from_error_kinds _ _ _ _ _ _ He) as ([->|Hd] & Hl).
    + repeat split; auto; done.
    + repeat split; auto; try done. by destruct e.
  - destruct (callf X w post p σ) as [[[r e'] p'] σ'] eqn:Hc. cbn in He. subst e'.
    apply callf_error_kinds in Hc. repeat split; try done. by destruct e.
Qed.
End Budget.

(** X1: an error returned by [call] is never one of the error classifier.
    With maxlag on it is [ErrAPIBusy] or an error of a dispatch, and never
    the [maxLagError] itself, which the loop consumes; with maxlag off it is
    an error of the one dispatch. *)
Theorem call_error_kinds
  (X : Extern) (w : Client) (p : Values) (post : bool) (σ : World) (e : error) :
  (call X w p post σ).1.1.2 = Some e →
  is_api_error e = false ∧
  (On (Maxlag w) = true →
     (e = ErrAPIBusy ∨ is_dispatch_error e = true) ∧
     as_maxLagError (Some e) = None) ∧
  (On (Maxlag w) = false → is_dispatch_error e = true).
Proof. apply call_errors. Qed.

(** The theorem on a server that always lags and on one out of reach. *)
Lemma call_error_kinds_witness :
  as_maxLagError
    (call Ex.X (Ex.with_maxlag true 2 (Ex.client (Ex.always (Ex.lag_response "7" "1"))))
       ∅ false world0).1.1.2 = None ∧
  is_dispatch_error (ErrHTTPRequest "dial tcp: connection refused") = true.
Proof.
  split.
  - destruct (call_error_kinds Ex.X
               (Ex.with_maxlag true 2 (Ex.client (Ex.always (Ex.lag_response "7" "1"))))
               ∅ false world0 ErrAPIBusy eq_refl) as (_ & H & _).
    exact (proj2 (H eq_refl)).
  - destruct (call_error_kinds Ex.X (Ex.client Ex.unreachable) ∅ false world0
               (ErrHTTPRequest "dial tcp: connection refused") eq_refl)
      as (_ & _ & H).
    exact (H eq_refl).
Defined.

(** X2: when [call] fails with [ErrAPIBusy], maxlag is on, no body is
    returned, and the whole budget was spent: as many requests as
    [Maxlag.Retries] were handed to the transport and one sleep less was
    made (none when the budget is zero or less). *)
Theorem call_busy_spends_budget
  (X : Extern) (w : Client) (p : Values) (post : bool) (σ : World) :
  (call X w p post σ).1.1.2 = Some ErrAPIBusy →
  On (Maxlag w) = true ∧
  (call X w p post σ).1.1.1 = None ∧
  length (sent (call X w p post σ).2) =
    (length (sent σ) + Z.to_nat (Retries (Maxlag w)))%nat ∧
  length (slept (call X w p post σ).2) =
    (length (slept σ) + (Z.to_nat (Retries (Maxlag w)) - 1))%nat.
Proof.
  intros He.
  assert (Hr : (call X w p post σ).1.1.1 = None).
  { destruct (call X w p post σ) as [[[r e] p'] σ'] eqn:Hc. cbn in *. subst e.
    by destruct (call_body_or_err _ _ _ _ _ _ _ _ _ Hc) as [[_ ?]|[-> _]]. }
  revert He Hr. unfold call. destruct (On (Maxlag w)); intros He Hr.
  - destruct (retry_from_spent X w post 0 p σ)
      as (a & b & Ha & Hb & _ & _ & _ & Hbusy).
    destruct (Hbusy He) as [-> ->]. rewrite Z.sub_0_r in *. done.
  - destruct (callf X w post p σ) as [[[r e] p'] σ'] eqn:Hc. cbn in He. subst e.
    by apply callf_error_kinds in Hc.
Qed.

(** The theorem on a server that always lags, the budget being four. *)
Lemma call_busy_spends_budget_witness :
  length (sent (call Ex.X
            (Ex.with_maxlag true 4 (Ex.client (Ex.always (Ex.lag_response "7" "1"))))
            ∅ true world0).2) = 4%nat ∧
  length (slept (call Ex.X
            (Ex.with_maxlag true 4 (Ex.client (Ex.always (Ex.lag_response "7" "1"))))
            ∅ true world0).2) = 3%nat.
Proof.
  destruct (call_busy_spends_budget Ex.X
              (Ex.with_maxlag true 4 (Ex.client (Ex.always (Ex.lag_response "7" "1"))))
              ∅ true world0 eq_refl) as (_ & _ & Hs & Hz).
  split; [exact Hs|exact Hz].
Defined.

(** X3: whatever the transport does, one [call] hands at most
    [Maxlag.Retries] requests to it and sleeps at most once less when maxlag
    is on, hands at most one request and never sleeps when it is off, and in
    no case sleeps more often than it sends. *)
Theorem call_within_budget
  (X : Extern) (w : Client) (p : Values) (post : bool) (σ : World) :
  ∃ a b : nat,
    length (sent (call X w p post σ).2) = (length (sent σ) + a)%nat ∧
    length (slept (call X w p post σ).2) = (length (slept σ) + b)%nat ∧
    (b <= a)%nat ∧
    (a <= if On (Maxlag w) then Z.to_nat (Retries (Maxlag w)) else 1)%nat ∧
    (b <= if On (Maxlag w) then Z.to_nat (Retries (Maxlag w)) - 1 else 0)%nat.
Proof.
  unfold call. destruct (On (Maxlag w)).
  - destruct (retry_from_spent X w post 0 p σ)
      as (a & b & Ha & Hb & Hab & Hal & Hbl & _).
    rewrite Z.sub_0_r in *. by exists a, b.
  - destruct (callf X w post p σ) as [[r p'] σ'] eqn:Hc.
    destruct (callf_effects _ _ _ _ _ _ _ _ Hc) as (_ & Hz & Hs).
    exists (length (sent σ') - length (sent σ))%nat, 0%nat. cbn [fst snd].
    destruct Hs as [Hs|Hs]; rewrite Hs, Hz, ?length_app; cbn [length];
      repeat split; lia.
Qed.

(** *** The caller's map *)

Section Params.
Context (X : Extern).

Lemma retry_from_params w post p tries p0 σ :
  augment w p0 = augment w p →
  (retry_from X w post tries p0 σ).1.2 = augment w p ∨
  ((retry_from X w post tries p0 σ).1.2 = p0 ∧
   (retry_from X w post tries p0 σ).2 = σ ∧
   Retries (Maxlag w) <= tries).
Proof.
  revert tries p0 σ.
  apply (retry_loop_ind X w post (fun tries p0 σ res =>
    augment w p0 = augment w p →
    res.1.2 = augment w p ∨ (res.1.2 = p0 ∧ res.2 = σ ∧ Retries (Maxlag w) <= tries))).
  - intros; right; done.
  - intros tries p0 σ r e p' σ' _ Hc _ Hp. left.
    destruct (callf_effects _ _ _ _ _ _ _ _ Hc) as (-> & _). done.
  - intros tries p0 σ r m wt p' σ' res _ Hc IH Hp. left.
    destruct (callf_lag_effects _ _ _ _ _ _ _ _ _ _ Hc) as (_ & -> & _).
    destruct IH as [IH|(IH & _)]; [by rewrite augment_idem|done|].
    by rewrite IH.
Qed.

Lemma call_params w p post σ :
  (call X w p post σ).1.2 = augment w p ∨
  ((call X w p post σ).1.2 = p ∧ (call X w p post σ).2 = σ ∧
   On (Maxlag w) = true ∧ Retries (Maxlag w) <= 0).
Proof.
  unfold call. destruct (On (Maxlag w)).
  - destruct (retry_from_params w post p 0 p σ eq_refl) as [H|(H1 & H2 & H3)]; auto.
  - left. destruct (callf X w post p σ) as [[r p'] σ'] eqn:Hc.
    by destruct (callf_effects _ _ _ _ _ _ _ _ Hc) as (-> & _).
Qed.

Lemma callJSON_params w p post σ :
  (callJSON X w p post σ).1.2 = (call X w p post σ).1.2.
Proof.
  unfold callJSON. destruct (call X w p post σ) as [[[b e] q] τ].
  repeat case_match; simplify_eq; done.
Qed.

Lemma callRaw_params w p post σ :
  (callRaw X w p post σ).1.2 = (call X w p post σ).1.2.
Proof.
  unfold callRaw, ReadAll. destruct (call X w p post σ) as [[[b e] q] τ].
  repeat case_match; simplify_eq; done.
Qed.
End Params.

(** X4: the map the caller passed is mutated in place. After [call] (and so
    after [callJSON] and [callRaw]) it is the augmented map, in which
    [format] is [json] and [utf8] is empty whatever the caller had set
    there, unless maxlag is on with a budget of zero or less, when it is
    untouched; in both cases every key other than [format], [utf8], [maxlag]
    and [assert] is as the caller set it. *)
Theorem call_mutates_only_protocol_keys
  (X : Extern) (w : Client) (p : Values) (post : bool) (σ : World) :
  ((call X w p post σ).1.2 = augment w p ∨
   ((call X w p post σ).1.2 = p ∧ On (Maxlag w) = true ∧ Retries (Maxlag w) <= 0)) ∧
  augment w p !! "format" = Some "json" ∧
  augment w p !! "utf8" = Some EmptyString ∧
  (∀ k : string,
     k ≠ "format" → k ≠ "utf8" → k ≠ "maxlag" → k ≠ "assert" →
     (call X w p post σ).1.2 !! k = p !! k) ∧
  (callJSON X w p post σ).1.2 = (call X w p post σ).1.2 ∧
  (callRaw X w p post σ).1.2 = (call X w p post σ).1.2.
Proof.
  split; [|split; [|split; [|split; [|split]]]].
  - destruct (call_params X w p post σ) as [H|(H & _ & H')]; auto.
  - apply augment_format.
  - apply augment_utf8.
  - intros k ? ? ? ?.
    destruct (call_params X w p post σ) as [->|(-> & _)]; [|done].
    by apply augment_other.
  - apply callJSON_params.
  - apply callRaw_params.
Qed.

(** The theorem on a caller that asks for XML and sets a key of its own. *)
Lemma call_mutates_only_protocol_keys_witness :
  (call Ex.X (Ex.client Ex.unreachable)
     (<["format" := "xml"]> {["titles" := "Main Page"]}) false world0).1.2
    !! "titles" = Some "Main Page".
Proof.
  destruct (call_mutates_only_protocol_keys Ex.X (Ex.client Ex.unreachable)
              (<["format" := "xml"]> {["titles" := "Main Page"]}) false world0)
    as (_ & _ & _ & H & _).
  rewrite (H "titles"); [reflexivity|discriminate..].
Defined.

(** *** The debug writer *)

Section Debug.
Context (X : Extern).

(** A relation between the world before and after that every dispatch and
    every sleep keeps holds between the worlds before and after [call]. *)
Lemma call_world_rel (w : Client) (R : World → World → Prop) :
  (∀ σ, R σ σ) →
  (∀ σ1 σ2 σ3, R σ1 σ2 → R σ2 σ3 → R σ1 σ3) →
  (∀ post p σ, R σ (callf X w post p σ).2) →
  (∀ d σ, R σ (do_sleep d σ)) →
  ∀ p post σ, R σ (call X w p post σ).2.
Proof.
  intros Hrefl Htrans Hstep Hsleep p post σ. unfold call.
  destruct (On (Maxlag w)); [|apply Hstep].
  revert p σ. generalize 0.
  apply (retry_loop_ind X w post (fun _ _ σ res => R σ res.2)).
  - intros; apply Hrefl.
  - intros tries p σ r e p' σ' _ Hc _. specialize (Hstep post p σ).
    by rewrite Hc in Hstep.
  - intros tries p σ r m wt p' σ' res _ Hc IH. specialize (Hstep post p σ).
    rewrite Hc in Hstep. cbn in Hstep.
    eapply Htrans; [exact Hstep|]. eapply Htrans; [|exact IH].
    case_match; [apply Hsleep|apply Hrefl].
Qed.

Lemma dumped_requests_app l1 l2 :
  dumped_requests (l1 ++ l2) = dumped_requests l1 ++ dumped_requests l2.
Proof.
  induction l1 as [|[req|resp] l1 IH]; cbn; [done| |done]. by rewrite IH.
Qed.

Lemma dumped_sent_world w req σ :
  dumped (sent_world w req σ) =
  dumped σ ++ (if debug w then [DumpRequestOut req] else []).
Proof.
  unfold sent_world, debug_dump. destruct (debug w); cbn; by rewrite ?app_nil_r.
Qed.

Lemma dumped_answered_world w req resp σ :
  dumped (answered_world w req resp σ) =
  dumped σ ++ (if debug w then [DumpRequestOut req; DumpResponse resp] else []).
Proof.
  unfold answered_world, dump_response, drainBody, Close, transport_body,
    sent_world, debug_dump.
  destruct (debug w), (RespReadErr resp); cbn;
    by rewrite <- ?app_assoc, ?app_nil_r.
Qed.

(** One dispatch in normal form. *)
Lemma callf_cases w post p σ :
  callf X w post p σ =
  match NewRequest_err X (request_url X w post (augment w p)) with
  | Some e => ((None, Some (ErrCreateRequest e)), augment w p, σ)
  | None =>
      match httpc w (sent σ) (build_request X w post (augment w p)) with
      | DoErr e =>
          ((None, Some (ErrHTTPRequest e)), augment w p,
           sent_world w (build_request X w post (augment w p)) σ)
      | DoOK resp =>
          if negb (String.eqb (Header_Get (RespHeader resp) "X-Database-Lag")
                     EmptyString) then
            ((None,
              match Atoi (Header_Get (RespHeader resp) "Retry-After") with
              | None =>
                  Some (NumError (Header_Get (RespHeader resp) "Retry-After"))
              | Some n =>
                  match RespReadErr resp with
                  | Some e => Some (ErrReadBody e)
                  | None => Some (maxLagError (RespBytes resp) n)
                  end
              end),
             augment w p,
             lag_world w (build_request X w post (augment w p)) resp σ)
          else
            ((Some (received_body w resp (length (sent σ))), None), augment w p,
             answered_world w (build_request X w post (augment w p)) resp σ)
      end
  end.
Proof.
  destruct (NewRequest_err X _) as [e|] eqn:Hn; [by apply callf_bad_request|].
  destruct (httpc w _ _) as [e|resp] eqn:Hd; [by apply callf_do_err|].
  rewrite (callf_do_ok _ _ _ _ _ _ Hn Hd).
  unfold handle_response, ReadAll, lag_world.
  assert (Herr : rc_err (received_body w resp (length (sent σ))) = RespReadErr resp).
  { unfold received_body, drained, transport_body.
    by destruct (debug w), (RespReadErr resp). }
  rewrite Herr.
  destruct (negb _); [|done].
  destruct (Atoi _); [|done].
  destruct (RespReadErr resp) eqn:Hr; [done|].
  by rewrite (proj2 (received_body_readable w resp _ Hr)).
Qed.

Lemma callf_dumped w post p σ :
  (debug w = false → dumped (callf X w post p σ).2 = dumped σ) ∧
  (debug w = true →
   ∃ l, sent (callf X w post p σ).2 = sent σ ++ l ∧
        dumped_requests (dumped (callf X w post p σ).2) =
          dumped_requests (dumped σ) ++ l).
Proof.
  rewrite callf_cases. unfold lag_world.
  split; intros Hd.
  - repeat case_match; cbn [snd];
      rewrite ?dumped_Close, ?dumped_answered_world, ?dumped_sent_world, ?Hd,
        ?app_nil_r; done.
  - repeat case_match; cbn [snd];
      first [ by (exists []; rewrite !app_nil_r)
            | eexists [_]; world_simpl; split; [done|];
              rewrite ?dumped_Close, ?dumped_answered_world, ?dumped_sent_world,
                ?Hd, ?dumped_requests_app; cbn; by rewrite ?app_nil_r ].
Qed.



End Debug.



(** X6: without a debug writer [call] dumps nothing; with one, the requests
    it dumps are exactly the requests it hands to the transport, in the same
    order. *)
Theorem call_dumps_every_request
  (X : Extern) (w : Client) (p : Values) (post : bool) (σ : World) :
  (debug w = false → dumped (call X w p post σ).2 = dumped σ) ∧
  (debug w = true →
   ∃ l, sent (call X w p post σ).2 = sent σ ++ l ∧
        dumped_requests (dumped (call X w p post σ).2) =
          dumped_requests (dumped σ) ++ l).
Proof.
  apply (call_world_rel X w (fun σ σ' =>
    (debug w = false → dumped σ' = dumped σ) ∧
    (debug w = true →
     ∃ l, sent σ' = sent σ ++ l ∧
          dumped_requests (dumped σ') = dumped_requests (dumped σ) ++ l))).
  - intros σ0. split; [done|]. intros _. exists []. by rewrite !app_nil_r.
  - intros σ1 σ2 σ3 (Hf1 & Ht1) (Hf2 & Ht2). split.
    + intros Hd. by rewrite Hf2, Hf1.
    + intros Hd. destruct (Ht1 Hd) as (l1 & Hs1 & Hd1).
      destruct (Ht2 Hd) as (l2 & Hs2 & Hd2).
      exists (l1 ++ l2). by rewrite Hs2, Hs1, Hd2, Hd1, !app_assoc.
  - intros. apply callf_dumped.
  - intros d σ0. split; [done|]. intros _. exists []. by rewrite !app_nil_r.
Qed.

(** The theorem on a server that lags once. *)
Lemma call_dumps_every_request_witness :
  dumped_requests
    (dumped (call Ex.X
               (SetDebug true (Ex.with_maxlag true 3 (Ex.client (Ex.lag_once "5" "{}"))))
               ∅ false world0).2)
  = sent (call Ex.X
            (SetDebug true (Ex.with_maxlag true 3 (Ex.client (Ex.lag_once "5" "{}"))))
            ∅ false world0).2.
Proof.
  destruct (proj2 (call_dumps_every_request Ex.X
              (SetDebug true (Ex.with_maxlag true 3 (Ex.client (Ex.lag_once "5" "{}"))))
              ∅ false world0) eq_refl) as (l & Hs & Hd).
  rewrite Hs, Hd. reflexivity.
Defined.

(** *** Response bodies *)

Section Bodies.
Context (X : Extern).

Lemma answered_lt w l i : answered w l i → (i < length l)%nat.
Proof. intros (req & resp & Hl & _). by eapply lookup_lt_Some. Qed.

Lemma answered_snoc w l req i :
  answered w (l ++ [req]) i ↔
  answered w l i ∨ (i = length l ∧ ∃ resp, httpc w l req = DoOK resp).
Proof.
  unfold answered. split.
  - intros (rq & resp & Hl & Hh).
    destruct (decide (i < length l)%nat) as [Hlt|Hge].
    + left. exists rq, resp. rewrite lookup_app_l in Hl by done.
      rewrite take_app_le in Hh by lia. done.
    + assert (i = length l) as ->.
      { apply lookup_lt_Some in Hl. rewrite length_app in Hl. cbn in Hl. lia. }
      right. split; [done|]. exists resp.
      rewrite list_lookup_middle in Hl by done. simplify_eq.
      by rewrite take_app_length in Hh.
  - intros [(rq & resp & Hl & Hh)|(-> & resp & Hh)].
    + exists rq, resp. split; [by apply lookup_app_l_Some|].
      rewrite take_app_le; [done|]. apply lookup_lt_Some in Hl. lia.
    + exists req, resp. split; [by apply list_lookup_middle|].
      by rewrite take_app_length.
Qed.

Lemma settled_but_None w σ : settled_but w σ None ↔ bodies_settled w σ.
Proof.
  unfold settled_but, bodies_settled. split.
  - intros (Hn & _ & H). split; [done|]. intros i. rewrite H. naive_solver.
  - intros (Hn & H). split; [done|]. split; [done|]. intros i. rewrite H.
    naive_solver.
Qed.

Lemma dump_closes_buffered w resp id :
  dump_closes w resp id =
  if rc_buffered (received_body w resp id) then [id] else [].
Proof.
  unfold dump_closes, received_body, drained, transport_body.
  by destruct (debug w), (RespReadErr resp).
Qed.

(** One dispatch, by what becomes of the body. *)
Lemma callf_bodies w post p σ r e p' σ' :
  callf X w post p σ = ((r, e), p', σ') →
  (r = None ∧ sent σ' = sent σ ∧ closed σ' = closed σ) ∨
  (r = None ∧ (∃ d, httpc w (sent σ) (build_request X w post (augment w p)) = DoErr d) ∧
   sent σ' = sent σ ++ [build_request X w post (augment w p)] ∧
   closed σ' = closed σ) ∨
  (r = None ∧ (∃ resp, httpc w (sent σ) (build_request X w post (augment w p)) = DoOK resp) ∧
   sent σ' = sent σ ++ [build_request X w post (augment w p)] ∧
   closed σ' = closed σ ++ [length (sent σ)]) ∨
  ((∃ b, r = Some b ∧ rc_id b = length (sent σ) ∧
         closed σ' =
           closed σ ++ (if rc_buffered b then [length (sent σ)] else []) ∧
         (debug w = false → rc_buffered b = false)) ∧
   (∃ resp, httpc w (sent σ) (build_request X w post (augment w p)) = DoOK resp) ∧
   sent σ' = sent σ ++ [build_request X w post (augment w p)]).
Proof.
  rewrite callf_cases. intros H.
  destruct (NewRequest_err X _); [simplify_eq; auto|].
  destruct (httpc w _ _) as [d|resp] eqn:Hd.
  - simplify_eq. world_simpl. right. left. eauto.
  - destruct (negb _); simplify_eq; world_simpl.
    + right; right; left; eauto.
    + right; right; right. split; [|eauto].
      eexists. split; [done|].
      split; [apply received_body_closes|].
      split; [by rewrite dump_closes_buffered|].
      intros Hdb. unfold received_body. by rewrite Hdb.
Qed.

Lemma callf_settled w post p σ r e p' σ' :
  bodies_settled w σ →
  callf X w post p σ = ((r, e), p', σ') →
  settled_but w σ' r.
Proof.
  intros (Hn & Hs) Hc.
  assert (Hfresh : length (sent σ) ∉ closed σ).
  { intros Hin. apply Hs, answered_lt in Hin. lia. }
  assert (Hnd : NoDup (closed σ ++ [length (sent σ)])).
  { apply NoDup_app. split; [done|]. split; [|apply NoDup_singleton].
    intros i Hi ->%list_elem_of_singleton. done. }
  destruct (callf_bodies _ _ _ _ _ _ _ _ Hc)
    as [(-> & Hs' & Hc')|[(-> & (d & Hd) & Hs' & Hc')|
        [(-> & (resp & Hd) & Hs' & Hc')|
         ((b & -> & Hb & Hc' & _) & (resp & Hd) & Hs')]]];
    unfold settled_but; rewrite Hs', Hc'.
  - split; [done|]. split; [done|]. intros i. rewrite Hs. naive_solver.
  - split; [done|]. split; [done|]. intros i. rewrite answered_snoc, Hs, Hd.
    naive_solver.
  - split; [done|]. split; [done|].
    intros i. rewrite answered_snoc, elem_of_app, list_elem_of_singleton, Hs.
    naive_solver.
  - destruct (rc_buffered b) eqn:Hbuf.
    + split; [done|]. split; [by intros b' [= <-]; congruence|].
      intros i. rewrite answered_snoc, elem_of_app, list_elem_of_singleton, Hs.
      naive_solver.
    + rewrite app_nil_r. split; [done|]. split.
      * intros b' [= <-] _. by rewrite Hb.
      * intros i. rewrite answered_snoc, Hs. naive_solver.
Qed.

Lemma settled_sleep w d σ : bodies_settled w σ → bodies_settled w (do_sleep d σ).
Proof. done. Qed.

Lemma call_settled w p post σ :
  bodies_settled w σ →
  settled_but w (call X w p post σ).2 (call X w p post σ).1.1.1.
Proof.
  unfold call. destruct (On (Maxlag w)).
  - revert p σ. generalize 0.
    apply (retry_loop_ind X w post (fun _ _ σ res =>
      bodies_settled w σ → settled_but w res.2 res.1.1.1)).
    + intros ? ? σ _ H. by apply settled_but_None.
    + intros tries p σ r e p' σ' _ Hc _ H. by eapply callf_settled.
    + intros tries p σ r m wt p' σ' res _ Hc IH H. apply IH.
      pose proof (callf_settled _ _ _ _ _ _ _ _ H Hc) as Hb.
      destruct (callf_lag_effects _ _ _ _ _ _ _ _ _ _ Hc) as (-> & _).
      apply settled_but_None in Hb. case_match; [by apply settled_sleep|done].
  - intros H. destruct (callf X w post p σ) as [[[r e] p'] σ'] eqn:Hc.
    by eapply callf_settled.
Qed.

(** Closing the body returned settles the world. *)
Lemma settled_close w σ b :
  settled_but w σ (Some b) → bodies_settled w (Close b σ).
Proof.
  intros (Hn & Hf & H). unfold Close. destruct (rc_buffered b) eqn:Hbuf.
  - split; [done|]. intros i. rewrite H. split; [auto|].
    intros [?|(b0 & [= <-] & Hb0 & _)]; [done|congruence].
  - split; cbn.
    + apply NoDup_app. split; [done|]. split; [|apply NoDup_singleton].
      intros i Hi ->%list_elem_of_singleton. by eapply Hf.
    + intros i. rewrite H, elem_of_app, list_elem_of_singleton. naive_solver.
Qed.

Lemma callJSON_world w p post σ :
  (callJSON X w p post σ).2 =
  match (call X w p post σ).1.1 with
  | (Some b, None) => Close b (call X w p post σ).2
  | _ => (call X w p post σ).2
  end.
Proof.
  unfold callJSON, NewObjectFromReader.
  destruct (call X w p post σ) as [[[[b|] [e|]] q] τ]; cbn [fst snd]; try done.
  by destruct (jason_decode X _ _).
Qed.

Lemma callRaw_world w p post σ :
  (callRaw X w p post σ).2 = (callJSON X w p post σ).2.
Proof.
  rewrite callJSON_world. unfold callRaw, ReadAll.
  destruct (call X w p post σ) as [[[[b|] [e|]] q] τ]; cbn [fst snd]; try done.
  by destruct (rc_err b).
Qed.

Lemma callJSON_settled w p post σ :
  bodies_settled w σ → bodies_settled w (callJSON X w p post σ).2.
Proof.
  intros H. rewrite callJSON_world.
  pose proof (call_settled w p post σ H) as Hs.
  destruct (call X w p post σ) as [[[b e] q] τ] eqn:Hc. cbn [fst snd] in *.
  destruct (call_body_or_err _ _ _ _ _ _ _ _ _ Hc) as [[[b' ->] ->]|[-> [e' ->]]].
  - by apply settled_close.
  - by apply settled_but_None.
Qed.
End Bodies.

Section BodiesMore.
Context (X : Extern).

Lemma world0_settled w : bodies_settled w world0.
Proof.
  split; [apply NoDup_nil_2|]. intros i. split.
  - intros Hi. by apply elem_of_nil in Hi.
  - intros Ha. apply answered_lt in Ha. cbn in Ha. lia.
Qed.

(** The body [call] returns is that of the last request sent; when it is a
    copy in memory its stream is closed, and without a debug writer it is
    never a copy. *)
Lemma call_body_facts w p post σ b :
  (call X w p post σ).1.1.1 = Some b →
  length (sent (call X w p post σ).2) = S (rc_id b) ∧
  (rc_buffered b = true → rc_id b ∈ closed (call X w p post σ).2) ∧
  (debug w = false → rc_buffered b = false).
Proof.
  assert (Hf : ∀ p σ r e p' σ', callf X w post p σ = ((r, e), p', σ') →
            r = Some b →
            length (sent σ') = S (rc_id b) ∧
            (rc_buffered b = true → rc_id b ∈ closed σ') ∧
            (debug w = false → rc_buffered b = false)).
  { intros p0 σ0 r e p' σ' Hc ->.
    destruct (callf_bodies _ _ _ _ _ _ _ _ _ Hc)
      as [(? & _)|[(? & _)|[(? & _)|((b' & ? & Hb & Hcl & Hdb) & _ & Hs)]]];
      simplify_eq.
    rewrite Hs, length_app, Hb, Hcl. cbn. split; [lia|]. split; [|done].
    intros ->. apply elem_of_app. right. by apply list_elem_of_singleton. }
  unfold call. destruct (On (Maxlag w)).
  - revert p σ. generalize 0.
    apply (retry_loop_ind X w post (fun _ _ _ res =>
      res.1.1.1 = Some b →
      length (sent res.2) = S (rc_id b) ∧
      (rc_buffered b = true → rc_id b ∈ closed res.2) ∧
      (debug w = false → rc_buffered b = false))).
    + done.
    + intros tries p σ r e p' σ' _ Hc _ Hr. by eapply Hf.
    + auto.
  - destruct (callf X w post p σ) as [[[r e] p'] σ'] eqn:Hc. by eapply Hf.
Qed.

Lemma callJSON_nil_document w p post σ :
  (callJSON X w p post σ).1.1.1 = None →
  ∃ e, (callJSON X w p post σ).1.1.2 = Some e ∧ is_api_error e = false.
Proof.
  pose proof (call_errors X w p post σ) as Hk.
  unfold callJSON, NewObjectFromReader in *.
  destruct (call X w p post σ) as [[[[b|] [e|]] q] τ]; cbn [fst snd] in *.
  - intros _. exists e. split; [done|]. by apply Hk.
  - destruct (jason_decode X _ _); [done|]. intros _. by exists ErrJSON.
  - intros _. exists e. split; [done|]. by apply Hk.
  - intros _. by exists Panic.
Qed.

Lemma callRaw_error_kinds w p post σ e :
  (callRaw X w p post σ).1.1.2 = Some e → is_api_error e = false.
Proof.
  pose proof (call_errors X w p post σ) as Hk.
  unfold callRaw, ReadAll in *.
  destruct (call X w p post σ) as [[[[b|] [e'|]] q] τ]; cbn [fst snd] in *.
  - intros [= <-]. by apply Hk.
  - destruct (rc_err b); cbn; intros; by simplify_eq.
  - intros [= <-]. by apply Hk.
  - intros [= <-]. done.
Qed.
End BodiesMore.

(** X7: the decoders leak no body and close none twice. If every body
    received so far was closed exactly once, the same holds after
    [callJSON], after [callRaw] and after [Logout], whatever the transport
    answered and however many attempts were made. *)
Theorem decoders_close_every_body
  (X : Extern) (w : Client) (p : Values) (post : bool) (σ : World) :
  bodies_settled w σ →
  bodies_settled w (callJSON X w p post σ).2 ∧
  bodies_settled w (callRaw X w p post σ).2 ∧
  bodies_settled w (Logout X w σ).2.
Proof.
  intros H. split; [|split].
  - by apply callJSON_settled.
  - rewrite callRaw_world. by apply callJSON_settled.
  - unfold Logout, Get.
    pose proof (callJSON_settled X (set_Assert AssertNone w)
                  {["action" := "logout"]} false σ H) as Hs.
    by destruct (callJSON X _ _ false σ) as [[r q] τ].
Qed.

(** The theorem on a server that lags once and then answers. *)
Lemma decoders_close_every_body_witness :
  bodies_settled (Ex.with_maxlag true 3 (Ex.client (Ex.lag_once "5" "{}")))
    (callJSON Ex.X (Ex.with_maxlag true 3 (Ex.client (Ex.lag_once "5" "{}")))
       ∅ false world0).2.
Proof.
  exact (proj1 (decoders_close_every_body Ex.X
                  (Ex.with_maxlag true 3 (Ex.client (Ex.lag_once "5" "{}")))
                  ∅ false world0 (world0_settled _))).
Defined.

(** X8: [call] leaves open at most the body it returns. If every stream
    received so far was closed exactly once, then after [call] every stream
    received is closed exactly once except that of the body returned, when
    that body is the stream itself: it is not closed then. This is so
    whenever there is no debug writer; with one, the body returned can be a
    copy in memory, and then its stream is closed too. In both cases the
    body returned belongs to the response to the last request sent. *)
Theorem call_leaves_only_its_body_open
  (X : Extern) (w : Client) (p : Values) (post : bool) (σ : World) :
  bodies_settled w σ →
  settled_but w (call X w p post σ).2 (call X w p post σ).1.1.1 ∧
  (∀ b, (call X w p post σ).1.1.1 = Some b →
     length (sent (call X w p post σ).2) = S (rc_id b) ∧
     (rc_buffered b = false → rc_id b ∉ closed (call X w p post σ).2) ∧
     (rc_buffered b = true → rc_id b ∈ closed (call X w p post σ).2) ∧
     (debug w = false → rc_buffered b = false)).
Proof.
  intros H. pose proof (call_settled X w p post σ H) as Hs.
  split; [done|]. intros b Hb.
  destruct (call_body_facts X w p post σ b Hb) as (Hl & Hin & Hdb).
  split; [done|]. split; [|done].
  destruct Hs as (_ & Hf & _). by apply Hf.
Qed.

(** The theorem on a server that lags once and then answers. *)
Lemma call_leaves_only_its_body_open_witness :
  closed (call Ex.X (Ex.with_maxlag true 3 (Ex.client (Ex.lag_once "5" "{}")))
            ∅ false world0).2 = [0%nat] ∧
  1%nat ∉ closed (call Ex.X (Ex.with_maxlag true 3 (Ex.client (Ex.lag_once "5" "{}")))
                    ∅ false world0).2.
Proof.
  split; [reflexivity|].
  exact (proj1 (proj2 (proj2 (call_leaves_only_its_body_open Ex.X
                  (Ex.with_maxlag true 3 (Ex.client (Ex.lag_once "5" "{}")))
                  ∅ false world0 (world0_settled _))
                  {| rc_id := 1; rc_bytes := "{}"; rc_err := None;
                     rc_buffered := false |} eq_refl)) eq_refl).
Defined.

(** X9: [callRaw] (and so [GetRaw] and [PostRaw]) has the effects of
    [callJSON] and differs in what it returns only: the bytes of the body as
    they are, or the error of reading it. It never returns an error of the
    error classifier; with maxlag off, a readable response without lag
    header gives its bytes and a nil error whatever the bytes say. *)
Theorem callRaw_returns_bytes_unclassified
  (X : Extern) (w : Client) (p : Values) (post : bool) (σ : World) :
  (callRaw X w p post σ).2 = (callJSON X w p post σ).2 ∧
  (callRaw X w p post σ).1.2 = (callJSON X w p post σ).1.2 ∧
  (∀ b, (call X w p post σ).1.1 = (Some b, None) →
     (callRaw X w p post σ).1.1 =
       match rc_err b with
       | None => (Some (rc_bytes b), None)
       | Some d => (None, Some (ErrReadBody d))
       end) ∧
  (∀ e, (callRaw X w p post σ).1.1.2 = Some e → is_api_error e = false) ∧
  (∀ resp,
     On (Maxlag w) = false →
     NewRequest_err X (request_url X w post (augment w p)) = None →
     httpc w (sent σ) (build_request X w post (augment w p)) = DoOK resp →
     Header_Get (RespHeader resp) "X-Database-Lag" = EmptyString →
     RespReadErr resp = None →
     (callRaw X w p post σ).1.1 = (Some (RespBytes resp), None)) ∧
  GetRaw X w p σ = callRaw X w p false σ ∧
  PostRaw X w p σ = callRaw X w p true σ.
Proof.
  split; [apply callRaw_world|]. split.
  { by rewrite callRaw_params, callJSON_params. }
  split.
  { intros b Hb. unfold callRaw, ReadAll.
    destruct (call X w p post σ) as [[[b' e] q] τ]. cbn in Hb. simplify_eq.
    by destruct (rc_err b). }
  split; [apply callRaw_error_kinds|]. split; [|done].
  intros resp Hoff Hurl Hd Hh Hr. unfold callRaw, call. rewrite Hoff.
  rewrite (callf_do_ok X w post p σ resp Hurl Hd).
  unfold handle_response, ReadAll. rewrite Hh. cbn.
  destruct (received_body_readable w resp (length (sent σ)) Hr) as [-> ->].
  done.
Qed.

(** The theorem on a server that answers with the error body. *)
Lemma callRaw_returns_bytes_unclassified_witness :
  (GetRaw Ex.X (Ex.client (Ex.always (Ex.ok_response Ex.error_body))) ∅ world0).1.1
  = (Some Ex.error_body, None).
Proof.
  destruct (callRaw_returns_bytes_unclassified Ex.X
              (Ex.client (Ex.always (Ex.ok_response Ex.error_body))) ∅ false world0)
    as (_ & _ & _ & _ & H & _).
  exact (H (Ex.ok_response Ex.error_body) eq_refl eq_refl eq_refl eq_refl eq_refl).
Defined.

(** X10: what [callJSON] returns tells the two kinds of failure apart. A nil
    document always comes with an error, which is never one of the error
    classifier (the call failed or the body did not decode); a document
    comes with exactly the verdict of the classifier on it, so a nil error
    means a document the classifier accepts. *)
Theorem callJSON_document_tells_error_kind
  (X : Extern) (w : Client) (p : Values) (post : bool) (σ : World) :
  ((callJSON X w p post σ).1.1.1 = None →
   ∃ e, (callJSON X w p post σ).1.1.2 = Some e ∧ is_api_error e = false) ∧
  (∀ js, (callJSON X w p post σ).1.1.1 = Some js →
     (callJSON X w p post σ).1.1.2 = extractAPIErrors js).
Proof.
  split; [apply callJSON_nil_document|].
  unfold callJSON, NewObjectFromReader.
  destruct (call X w p post σ) as [[[[b|] [e|]] q] τ]; cbn [fst snd]; try done.
  destruct (jason_decode X _ _); cbn; intros; by simplify_eq.
Qed.

(** The theorem on a server out of reach and on one that answers with the
    error body. *)
Lemma callJSON_document_tells_error_kind_witness :
  (∃ e, (callJSON Ex.X (Ex.client Ex.unreachable) ∅ false world0).1.1.2 = Some e ∧
        is_api_error e = false) ∧
  (callJSON Ex.X (Ex.client (Ex.always (Ex.ok_response Ex.error_body))) ∅ false
     world0).1.1.2 = extractAPIErrors Ex.error_doc.
Proof.
  split.
  - exact (proj1 (callJSON_document_tells_error_kind Ex.X (Ex.client Ex.unreachable)
                    ∅ false world0) eq_refl).
  - exact (proj2 (callJSON_document_tells_error_kind Ex.X
                    (Ex.client (Ex.always (Ex.ok_response Ex.error_body)))
                    ∅ false world0) Ex.error_doc eq_refl).
Defined.

(** *** What goes on the wire *)

Section Wire.
Context (X : Extern).

Lemma callJSON_requests w p post σ :
  ∃ k : nat,
    sent (callJSON X w p post σ).2 =
      sent σ ++ replicate k (build_request X w post (augment w p)).
Proof. rewrite callJSON_sent. apply call_sent. Qed.

(** When [Login] returns nil the mode is [AssertUser] if it was
    [AssertNone], and otherwise what it was. *)
Lemma Login_nil_mode w username password σ :
  (Login X w username password σ).1.1 = None →
  Assert (Login X w username password σ).1.2 =
    if Assert w =? AssertNone then AssertUser else Assert w.
Proof.
  unfold Login.
  destruct (GetToken X LoginToken w σ) as [[[token e] tokens] σ1].
  destruct e; [done|].
  destruct (Post X _ _ σ1) as [[[resp e] pp] σ2].
  destruct e, resp; try done.
  destruct (GetString _ _); [|done].
  destruct (negb _); [done|]. intros _. cbn [fst snd set_Tokens Assert].
  by destruct (Assert w =? AssertNone).
Qed.

(** [Login] touches the token cache and the mode, nothing else. *)
Lemma Login_frame w username password σ :
  httpc (Login X w username password σ).1.2 = httpc w ∧
  apiURL (Login X w username password σ).1.2 = apiURL w ∧
  UserAgent (Login X w username password σ).1.2 = UserAgent w ∧
  Maxlag (Login X w username password σ).1.2 = Maxlag w ∧
  debug (Login X w username password σ).1.2 = debug w ∧
  Tokens (Login X w username password σ).1.2 = (GetToken X LoginToken w σ).1.2.
Proof.
  unfold Login.
  destruct (GetToken X LoginToken w σ) as [[[token e] tokens] σ1].
  destruct e; [done|].
  destruct (Post X _ _ σ1) as [[[resp e] pp] σ2].
  destruct e, resp; try done.
  destruct (GetString _ _); [|done].
  destruct (negb _); [done|]. cbn [fst snd].
  by destruct (Assert _ =? AssertNone).
Qed.

(** After the token fetch, [Login] sends what its [Post] sends. *)
Lemma Login_sent w username password σ token tokens σ1 :
  GetToken X LoginToken w σ = ((token, None), tokens, σ1) →
  ∃ k : nat,
    sent (Login X w username password σ).2 =
      sent σ1 ++
      replicate k
        (build_request X (set_Tokens tokens w) true
           (augment (set_Tokens tokens w) (login_params username password token))).
Proof.
  intros Ht. unfold Login. rewrite Ht.
  destruct (callJSON_requests (set_Tokens tokens w)
              (login_params username password token) true σ1) as (k & Hk).
  exists k. unfold Post.
  destruct (callJSON X _ _ true σ1) as [[[resp e] pp] σ2]. cbn [snd] in Hk.
  destruct e, resp; cbn [snd]; try done.
  destruct (GetString _ _); [|done].
  by destruct (negb _).
Qed.
End Wire.

(** X11: the shape of the requests. Everything [Get] hands to the transport
    is a [GET] of the API URL with the encoded parameters as its query,
    without body and without [Content-Type]; everything [Post] hands to it
    is a [POST] of the bare API URL with the encoded parameters as its body
    and the form [Content-Type]; both carry the client's [User-Agent]. *)
Theorem Get_and_Post_request_shape
  (X : Extern) (w : Client) (p : Values) (σ : World) :
  (∃ k : nat,
     sent (Get X w p σ).2 =
       sent σ ++ replicate k (build_request X w false (augment w p))) ∧
  (∃ k : nat,
     sent (Post X w p σ).2 =
       sent σ ++ replicate k (build_request X w true (augment w p))) ∧
  Method (build_request X w false (augment w p)) = "GET" ∧
  URL (build_request X w false (augment w p)) =
    String.append (apiURL w) (String.append "?" (Encode X (augment w p))) ∧
  ReqBody (build_request X w false (augment w p)) = None ∧
  ReqHeader (build_request X w false (augment w p)) !! "Content-Type" = None ∧
  Header_Get (ReqHeader (build_request X w false (augment w p))) "User-Agent"
    = UserAgent w ∧
  Method (build_request X w true (augment w p)) = "POST" ∧
  URL (build_request X w true (augment w p)) = apiURL w ∧
  ReqBody (build_request X w true (augment w p)) = Some (Encode X (augment w p)) ∧
  Header_Get (ReqHeader (build_request X w true (augment w p))) "Content-Type"
    = "application/x-www-form-urlencoded" ∧
  Header_Get (ReqHeader (build_request X w true (augment w p))) "User-Agent"
    = UserAgent w.
Proof.
  split; [apply callJSON_requests|]. split; [apply callJSON_requests|].
  unfold build_request, Header_Get, Header_Set. cbn.
  repeat split; by simplify_map_eq.
Qed.

(** X12: [Login] sends the credentials in the body of a [POST], never in a
    URL. Once the token was fetched, everything [Login] hands to the
    transport is a [POST] of the bare API URL whose body encodes parameters
    with [action=login] and the given name, password and token; when the
    token fetch fails, [Login] returns its error and sends nothing. *)
Theorem Login_posts_credentials
  (X : Extern) (w : Client) (username password : string) (σ : World) :
  (∀ token tokens σ1,
     GetToken X LoginToken w σ = ((token, None), tokens, σ1) →
     ∃ (k : nat) (q : Values),
       sent (Login X w username password σ).2 =
         sent σ1 ++ replicate k (build_request X (set_Tokens tokens w) true q) ∧
       URL (build_request X (set_Tokens tokens w) true q) = apiURL w ∧
       Method (build_request X (set_Tokens tokens w) true q) = "POST" ∧
       ReqBody (build_request X (set_Tokens tokens w) true q) = Some (Encode X q) ∧
       q !! "action" = Some "login" ∧
       q !! "lgname" = Some username ∧
       q !! "lgpassword" = Some password ∧
       q !! "lgtoken" = Some token) ∧
  (∀ token e tokens σ1,
     GetToken X LoginToken w σ = ((token, Some e), tokens, σ1) →
     (Login X w username password σ).1.1 = Some e ∧
     (Login X w username password σ).2 = σ1).
Proof.
  split.
  - intros token tokens σ1 Ht.
    destruct (Login_sent X w username password σ token tokens σ1 Ht) as (k & Hk).
    exists k, (augment (set_Tokens tokens w) (login_params username password token)).
    split; [done|].
    repeat split; rewrite augment_other; try done; unfold login_params;
        by simplify_map_eq.
  - intros token e tokens σ1 Ht. unfold Login. by rewrite Ht.
Qed.

(** The theorem on a server that accepts the login. *)
Lemma Login_posts_credentials_witness :
  URL <$> sent (Login Ex.X
                  (Ex.client (Ex.always (Ex.ok_response (Ex.login_body "Success"))))
                  "u" "pw" world0).2
  = ["https://wiki.example/w/api.php"].
Proof.
  destruct (proj1 (Login_posts_credentials Ex.X
              (Ex.client (Ex.always (Ex.ok_response (Ex.login_body "Success"))))
              "u" "pw" world0) "tok" ∅ world0 eq_refl)
    as (k & q & Hs & Hu & _).
  assert (Hk : k = 1%nat).
  { apply (f_equal length) in Hs. rewrite length_app, length_replicate in Hs.
    vm_compute in Hs. lia. }
  rewrite Hs, Hk. cbn [replicate sent world0 app fmap list_fmap]. by rewrite Hu.
Defined.

(** X13: whatever happens, [Login] changes nothing of the client but the
    token cache, which becomes what the token fetch left, and the mode; the
    mode changes only from [AssertNone] to [AssertUser] and only when
    [Login] returns nil, so a failed [Login] never logs in and none ever
    leaves or enters bot mode. *)
Theorem Login_changes_mode_only_on_success
  (X : Extern) (w : Client) (username password : string) (σ : World) :
  (Assert (Login X w username password σ).1.2 = Assert w ∨
   ((Login X w username password σ).1.1 = None ∧ Assert w = AssertNone ∧
    Assert (Login X w username password σ).1.2 = AssertUser)) ∧
  ((Login X w username password σ).1.1 = None →
   Assert (Login X w username password σ).1.2 =
     if Assert w =? AssertNone then AssertUser else Assert w) ∧
  httpc (Login X w username password σ).1.2 = httpc w ∧
  apiURL (Login X w username password σ).1.2 = apiURL w ∧
  UserAgent (Login X w username password σ).1.2 = UserAgent w ∧
  Maxlag (Login X w username password σ).1.2 = Maxlag w ∧
  debug (Login X w username password σ).1.2 = debug w ∧
  Tokens (Login X w username password σ).1.2 = (GetToken X LoginToken w σ).1.2.
Proof.
  split; [apply Login_mode|]. split; [apply Login_nil_mode|]. apply Login_frame.
Qed.

(** The theorem on a client in bot mode that logs in again. *)
Lemma Login_changes_mode_only_on_success_witness :
  Assert (Login Ex.X
            (set_Assert AssertBot
               (Ex.client (Ex.always (Ex.ok_response (Ex.login_body "Success")))))
            "u" "pw" world0).1.2 = AssertBot.
Proof.
  exact (proj1 (proj2 (Login_changes_mode_only_on_success Ex.X
           (set_Assert AssertBot
              (Ex.client (Ex.always (Ex.ok_response (Ex.login_body "Success")))))
           "u" "pw" world0)) eq_refl).
Defined.

(** X14: [Logout] followed by a [Login] that returns nil ends in
    [AssertUser] whatever the mode was before; in particular a client in bot
    mode comes back in user mode. The request of [Logout] itself carries the
    [assert] parameter only if the caller's map had one, which it has not. *)
Theorem Login_after_Logout_asserts_user
  (X : Extern) (w : Client) (username password : string) (σ : World) :
  ((Login X (Logout X w σ).1 username password (Logout X w σ).2).1.1 = None →
   Assert (Login X (Logout X w σ).1 username password (Logout X w σ).2).1.2
     = AssertUser) ∧
  augment (Logout X w σ).1 {["action" := "logout"]} !! "assert" = None.
Proof.
  assert (Hw : (Logout X w σ).1 = set_Assert AssertNone w).
  { unfold Logout. by destruct (Get X _ _ σ) as [[? ?] ?]. }
  rewrite Hw. split.
  - intros Hn. by rewrite (Login_nil_mode X _ _ _ _ Hn).
  - by rewrite augment_assert.
Qed.

(** The theorem on a client in bot mode. *)
Lemma Login_after_Logout_asserts_user_witness :
  Assert (Login Ex.X
            (Logout Ex.X
               (set_Assert AssertBot
                  (Ex.client (Ex.always (Ex.ok_response (Ex.login_body "Success")))))
               world0).1
            "u" "pw"
            (Logout Ex.X
               (set_Assert AssertBot
                  (Ex.client (Ex.always (Ex.ok_response (Ex.login_body "Success")))))
               world0).2).1.2 = AssertUser.
Proof.
  exact (proj1 (Login_after_Logout_asserts_user Ex.X
           (set_Assert AssertBot
              (Ex.client (Ex.always (Ex.ok_response (Ex.login_body "Success")))))
           "u" "pw" world0) eq_refl).
Defined.

(** *** Construction *)

(** X15: [New] returns a client or an error, never both. A URL that does
    not parse gives the error of [url.Parse] whatever the user agent is; a
    user agent that is blank after trimming gives the empty-user-agent
    error. A client returned by [New] has the given user agent, untrimmed,
    followed by the default one, and dispatches plainly: every [call] is a
    single dispatch without retry, the parameters sent are the caller's
    with [format=json] and [utf8=] set and nothing else, and every request
    carries that user agent. *)
Theorem New_client_dispatches_plainly
  (url_Parse : string -> string + string) (TrimSpace : string -> string)
  (network : list Request -> Request -> DoResult) (inURL userAgent : string) :
  (∀ e, url_Parse inURL = inr e →
     New url_Parse TrimSpace network inURL userAgent = (None, Some (ErrParseURL e))) ∧
  (∀ u, url_Parse inURL = inl u → TrimSpace userAgent = EmptyString →
     New url_Parse TrimSpace network inURL userAgent = (None, Some ErrUserAgentEmpty)) ∧
  (∀ w, (New url_Parse TrimSpace network inURL userAgent).1 = Some w →
     (New url_Parse TrimSpace network inURL userAgent).2 = None ∧
     url_Parse inURL = inl (apiURL w) ∧
     TrimSpace userAgent ≠ EmptyString ∧
     UserAgent w = String.append userAgent (String.append " " DefaultUserAgent) ∧
     ∀ (X : Extern) (p : Values) (post : bool) (σ : World),
       call X w p post σ = callf X w post p σ ∧
       augment w p = <["utf8" := EmptyString]> (<["format" := "json"]> p) ∧
       Header_Get (ReqHeader (build_request X w post (augment w p))) "User-Agent"
         = String.append userAgent (String.append " " DefaultUserAgent)) ∧
  ((New url_Parse TrimSpace network inURL userAgent).1 = None →
   (New url_Parse TrimSpace network inURL userAgent).2 ≠ None).
Proof.
  unfold New. split; [by intros e ->|]. split.
  { intros u -> ->. done. }
  destruct (url_Parse inURL) as [u|e]; [|done].
  destruct (String.eqb_spec (TrimSpace userAgent) EmptyString) as [He|Hne];
    [done|].
  split; [|done]. intros w [= <-]. cbn [snd apiURL UserAgent].
  repeat split; try done.
  destruct post; unfold build_request, Header_Get, Header_Set; cbn;
    by simplify_map_eq.
Qed.

(** The theorem on a blank user agent, and on the requests of a client
    made for a bot. *)
Lemma New_client_dispatches_plainly_witness :
  New ExNew.parse ExNew.trim Ex.unreachable "https://wiki.example/w/api.php"
    "   " = (None, Some ErrUserAgentEmpty) ∧
  (∀ w, (New ExNew.parse ExNew.trim Ex.unreachable "https://wiki.example/w/api.php"
           "mybot/1.0").1 = Some w →
     augment w {["action" := "query"]} =
       <["utf8" := EmptyString]> (<["format" := "json"]> {["action" := "query"]})).
Proof.
  split.
  - exact (proj1 (proj2 (New_client_dispatches_plainly ExNew.parse ExNew.trim
             Ex.unreachable "https://wiki.example/w/api.php" "   "))
             "https://wiki.example/w/api.php" eq_refl eq_refl).
  - intros w Hw.
    destruct (proj1 (proj2 (proj2 (New_client_dispatches_plainly ExNew.parse
                ExNew.trim Ex.unreachable "https://wiki.example/w/api.php"
                "mybot/1.0"))) w Hw) as (_ & _ & _ & _ & H).
    exact (proj1 (proj2 (H Ex.X {["action" := "query"]} false world0))).
Defined.

(** *** The duration slept *)

(** X16: the duration handed to [Maxlag.sleep] for a wait of [n] seconds is
    [time.Duration(n) * time.Second] in 64-bit arithmetic: exactly [n]
    seconds in nanoseconds while [n] is at most 9223372036 in absolute
    value (so a negative [Retry-After] gives a negative duration), and, by
    overflow, a negative duration for every [n] from 9223372037 to
    18446744073. *)
Theorem seconds_exact_then_wraps :
  (∀ n, -9223372036 <= n <= 9223372036 → seconds n = n * 1000000000) ∧
  (∀ n, 9223372036 < n <= 18446744073 →
     seconds n = n * 1000000000 - 2 ^ 64 ∧ seconds n < 0).
Proof.
  unfold seconds, wrap64, Second. split.
  - intros n Hn. rewrite Z.mod_small; lia.
  - intros n Hn.
    assert (H : (n * 1000000000 + 2 ^ 63) mod 2 ^ 64
                = n * 1000000000 + 2 ^ 63 - 2 ^ 64).
    { symmetry. apply (Z.mod_unique _ _ 1); lia. }
    rewrite H. lia.
Qed.

(** The theorem on waits of five seconds and of 9223372037 seconds. *)
Lemma seconds_exact_then_wraps_witness :
  seconds 5 = 5000000000 ∧ seconds 9223372037 < 0.
Proof.
  split.
  - refine (proj1 seconds_exact_then_wraps 5 _). lia.
  - refine (proj2 (proj2 seconds_exact_then_wraps 9223372037 _)). lia.
Defined.

(** *** Retrying for any budget *)

Section AnyBudget.
Context (X : Extern).

(** While the transport answers with lag and attempts are left beyond those,
    the loop sends, closes, sleeps what each response asked for, and goes
    on. *)
Lemma retry_from_lag_prefix w post p (k : nat) :
  NewRequest_err X (request_url X w post (augment w p)) = None →
  ∀ (wait : nat → Z) tries p0 σ,
    augment w p0 = augment w p →
    tries + Z.of_nat k < Retries (Maxlag w) →
    (∀ i, (i < k)%nat → ∃ resp,
       httpc w (sent σ ++ replicate i (build_request X w post (augment w p)))
         (build_request X w post (augment w p)) = DoOK resp ∧
       signals_lag resp (wait i)) →
    ∃ σ1,
      retry_from X w post tries p0 σ =
        retry_from X w post (tries + Z.of_nat k)
          (match k with O => p0 | S _ => augment w p end) σ1 ∧
      sent σ1 = sent σ ++ replicate k (build_request X w post (augment w p)) ∧
      slept σ1 = slept σ ++ ((λ i, seconds (wait i)) <$> seq 0 k) ∧
      closed σ1 = closed σ ++ seq (length (sent σ)) k ∧
      timeline σ1 =
        timeline σ ++
        lag_rounds (build_request X w post (augment w p)) (length (sent σ))
          (wait <$> seq 0 k).
Proof.
  intros Hurl. induction k as [|k IH]; intros wait tries p0 σ Hp Hlt Hlag.
  - exists σ. rewrite Z.add_0_r. cbn. by rewrite !app_nil_r.
  - destruct (Hlag 0%nat ltac:(lia)) as (resp & Hd & Hl).
    cbn [replicate] in Hd. rewrite app_nil_r in Hd.
    assert (Hc := callf_lag X w post p0 σ resp (wait 0%nat)).
    rewrite Hp in Hc. specialize (Hc Hurl Hd Hl).
    assert (Hlt' : tries < Retries (Maxlag w)) by lia.
    rewrite (retry_from_lag _ _ _ _ _ _ _ _ _ _ _ Hlt' Hc).
    rewrite (proj2 (Z.ltb_lt _ _)) by lia.
    set (σ0 := do_sleep _ _).
    assert (Hs0 : sent σ0 = sent σ ++ [build_request X w post (augment w p)]).
    { subst σ0. by world_simpl. }
    assert (Hlt0 : tries + 1 + Z.of_nat k < Retries (Maxlag w)) by lia.
    destruct (IH (λ i, wait (S i)) (tries + 1) (augment w p) σ0
                (augment_idem w p) Hlt0)
      as (σ1 & Hr & Hs & Hz & Hcl & Ht).
    { intros i Hi. destruct (Hlag (S i) ltac:(lia)) as (resp' & Hd' & Hl').
      exists resp'. split; [|done].
      rewrite Hs0, <- app_assoc. exact Hd'. }
    assert (Hlen : length (sent σ0) = S (length (sent σ))).
    { rewrite Hs0, length_app. cbn. lia. }
    exists σ1. split; [|split; [|split; [|split]]].
    + rewrite Hr. replace (tries + 1 + Z.of_nat k) with (tries + Z.of_nat (S k)) by lia.
      by destruct k.
    + rewrite Hs, Hs0, <- app_assoc. done.
    + rewrite Hz. subst σ0. world_simpl. rewrite <- app_assoc.
      cbn [app seq fmap list_fmap]. do 2 f_equal.
      by rewrite <- fmap_S_seq, <- list_fmap_compose.
    + rewrite Hcl, Hlen. subst σ0. world_simpl.
      rewrite <- app_assoc. by cbn [seq app length].
    + rewrite Ht, Hlen. subst σ0. world_simpl.
      rewrite <- app_assoc. cbn [seq app fmap list_fmap lag_rounds].
      by rewrite <- fmap_S_seq, <- list_fmap_compose, <- app_assoc.
Qed.
End AnyBudget.

(** X17: for any retry budget, with maxlag on and a transport that answers
    every request with the lag signal and a wait of [n] seconds, [call]
    hands exactly as many requests as the budget to the transport, closes
    the body of each, sleeps exactly once less, each time for [n] seconds,
    and fails with [ErrAPIBusy]; the caller's map is augmented unless the
    budget is zero or less. *)
Theorem call_busy_for_any_budget
  (X : Extern) (w : Client) (p : Values) (post : bool) (σ : World) (n : Z) :
  On (Maxlag w) = true →
  NewRequest_err X (request_url X w post (augment w p)) = None →
  (∀ history, ∃ resp,
     httpc w history (build_request X w post (augment w p)) = DoOK resp ∧
     signals_lag resp n) →
  ∃ σ',
    call X w p post σ =
      ((None, Some ErrAPIBusy),
       match Z.to_nat (Retries (Maxlag w)) with O => p | S _ => augment w p end,
       σ') ∧
    sent σ' =
      sent σ ++
      replicate (Z.to_nat (Retries (Maxlag w))) (build_request X w post (augment w p)) ∧
    slept σ' =
      slept σ ++ replicate (Z.to_nat (Retries (Maxlag w)) - 1) (seconds n) ∧
    closed σ' = closed σ ++ seq (length (sent σ)) (Z.to_nat (Retries (Maxlag w))).
Proof.
  intros Hon Hurl Hlag. unfold call. rewrite Hon.
  destruct (Z.le_gt_cases (Retries (Maxlag w)) 0) as [Hle|Hgt].
  - exists σ. rewrite retry_from_exhausted by done.
    replace (Z.to_nat (Retries (Maxlag w))) with 0%nat by lia.
    cbn. by rewrite !app_nil_r.
  - apply (retry_from_all_lag X w post p n Hurl Hlag); [done|lia].
Qed.

(** The theorem on a budget of five. *)
Lemma call_busy_for_any_budget_witness :
  ∃ σ',
    (call Ex.X (Ex.with_maxlag true 5 (Ex.client (Ex.always (Ex.lag_response "7" "2"))))
       ∅ false world0).2 = σ' ∧
    length (sent σ') = 5%nat ∧
    slept σ' = replicate 4 2000000000 ∧
    closed σ' = [0; 1; 2; 3; 4]%nat.
Proof.
  destruct (call_busy_for_any_budget Ex.X
              (Ex.with_maxlag true 5 (Ex.client (Ex.always (Ex.lag_response "7" "2"))))
              ∅ false world0 2 eq_refl eq_refl) as (σ' & Hc & Hs & Hz & Hcl).
  - intros history. exists (Ex.lag_response "7" "2").
    repeat split; vm_compute; congruence.
  - exists σ'. rewrite Hc, Hs, Hz, Hcl. repeat split.
Defined.

(** X18: with maxlag on, when the first [k] requests are answered with the
    lag signal and the budget is larger than [k], [call] closes the stream
    of each of these responses and then sleeps for the time that response
    asked for, before the next request, and returns what the next attempt
    gives without going further: the body of a response without lag header
    (the live stream without a debug writer, what the dump left with one),
    or the error of a transport that fails, which is not retried. *)
Theorem call_retries_until_lag_ends
  (X : Extern) (w : Client) (p : Values) (post : bool) (σ : World)
  (k : nat) (wait : nat → Z) :
  On (Maxlag w) = true →
  Z.of_nat k < Retries (Maxlag w) →
  NewRequest_err X (request_url X w post (augment w p)) = None →
  (∀ i, (i < k)%nat → ∃ resp,
     httpc w (sent σ ++ replicate i (build_request X w post (augment w p)))
       (build_request X w post (augment w p)) = DoOK resp ∧
     signals_lag resp (wait i)) →
  (∀ ok,
     httpc w (sent σ ++ replicate k (build_request X w post (augment w p)))
       (build_request X w post (augment w p)) = DoOK ok →
     Header_Get (RespHeader ok) "X-Database-Lag" = EmptyString →
     ∃ σ',
       call X w p post σ =
         ((Some (received_body w ok (length (sent σ) + k)), None),
          augment w p, σ') ∧
       (debug w = false →
          received_body w ok (length (sent σ) + k) =
            {| rc_id := length (sent σ) + k; rc_bytes := RespBytes ok;
               rc_err := RespReadErr ok; rc_buffered := false |}) ∧
       sent σ' = sent σ ++ replicate (S k) (build_request X w post (augment w p)) ∧
       slept σ' = slept σ ++ ((λ i, seconds (wait i)) <$> seq 0 k) ∧
       closed σ' =
         closed σ ++ seq (length (sent σ)) k ++
         dump_closes w ok (length (sent σ) + k) ∧
       timeline σ' =
         timeline σ ++
         lag_rounds (build_request X w post (augment w p)) (length (sent σ))
           (wait <$> seq 0 k) ++
         [EvSend (build_request X w post (augment w p))] ++
         (EvClose <$> dump_closes w ok (length (sent σ) + k))) ∧
  (∀ d,
     httpc w (sent σ ++ replicate k (build_request X w post (augment w p)))
       (build_request X w post (augment w p)) = DoErr d →
     ∃ σ',
       call X w p post σ = ((None, Some (ErrHTTPRequest d)), augment w p, σ') ∧
       sent σ' = sent σ ++ replicate (S k) (build_request X w post (augment w p)) ∧
       slept σ' = slept σ ++ ((λ i, seconds (wait i)) <$> seq 0 k) ∧
       closed σ' = closed σ ++ seq (length (sent σ)) k ∧
       timeline σ' =
         timeline σ ++
         lag_rounds (build_request X w post (augment w p)) (length (sent σ))
           (wait <$> seq 0 k) ++
         [EvSend (build_request X w post (augment w p))]).
Proof.
  intros Hon Hk Hurl Hlag. unfold call. rewrite Hon.
  assert (Hk0 : 0 + Z.of_nat k < Retries (Maxlag w)) by lia.
  destruct (retry_from_lag_prefix X w post p k Hurl wait 0 p σ eq_refl Hk0 Hlag)
    as (σ1 & Hr & Hs & Hz & Hcl & Ht).
  set (p1 := match k with O => p | S _ => augment w p end) in *.
  assert (Hp1 : augment w p1 = augment w p).
  { subst p1. destruct k; [done|apply augment_idem]. }
  assert (Hlen : length (sent σ1) = (length (sent σ) + k)%nat).
  { by rewrite Hs, length_app, length_replicate. }
  rewrite Hr. split.
  - intros ok Hd Hh. rewrite <- Hs in Hd.
    assert (Hc : callf X w post p1 σ1 =
      ((Some (received_body w ok (length (sent σ) + k)), None), augment w p,
       answered_world w (build_request X w post (augment w p)) ok σ1)).
    { rewrite (callf_do_ok X w post p1 σ1 ok); rewrite Hp1; [|done..].
      unfold handle_response. rewrite Hh. cbn. by rewrite Hlen. }
    rewrite (retry_from_return X w post _ _ _ _ _ _ _ Hk0 Hc eq_refl).
    eexists; split; [done|].
    split; [intros Hdb; unfold received_body; by rewrite Hdb|].
    world_simpl.
    by rewrite Hlen, Hs, Hz, Hcl, Ht, replicate_S_end, <- !app_assoc.
  - intros d Hd. rewrite <- Hs in Hd.
    assert (Hc := callf_do_err X w post p1 σ1 d).
    rewrite Hp1 in Hc. specialize (Hc Hurl Hd).
    rewrite (retry_from_return X w post _ _ _ _ _ _ _ Hk0 Hc eq_refl).
    eexists; split; [done|]. world_simpl.
    by rewrite Hs, Hz, Hcl, Ht, replicate_S_end, <- !app_assoc.
Qed.

(** The theorem on a server that lags once, asking for five seconds. *)
Lemma call_retries_until_lag_ends_witness :
  ∃ σ',
    call Ex.X (Ex.with_maxlag true 3 (Ex.client (Ex.lag_once "5" "{}"))) ∅ true world0
    = ((Some {| rc_id := 1; rc_bytes := "{}"; rc_err := None;
                rc_buffered := false |}, None),
       augment (Ex.with_maxlag true 3 (Ex.client (Ex.lag_once "5" "{}"))) ∅, σ') ∧
    slept σ' = [5000000000].
Proof.
  destruct (call_retries_until_lag_ends Ex.X
              (Ex.with_maxlag true 3 (Ex.client (Ex.lag_once "5" "{}")))
              ∅ true world0 1 (λ _, 5)) as (H & _).
  - reflexivity.
  - reflexivity.
  - reflexivity.
  - intros i Hi. exists (Ex.lag_response "7" "5").
    destruct i as [|i]; [|lia]. repeat split; vm_compute; congruence.
  - destruct (H (Ex.ok_response "{}") eq_refl eq_refl)
      as (σ' & Hc & _ & _ & Hz & _).
    exists σ'. rewrite Hz. split; [exact Hc|reflexivity].
Defined.
